(** * Tic-tac-toe search of [scales/tictactoe.py]

    A shallow embedding of the board model, the win evaluator, the move
    generator, the minimax search and the depth selection of the
    tic-tac-toe extension, followed by the properties established about
    them.

    Python lists are modelled as Rocq lists read with stdpp's lookup and
    written with stdpp's insert; an index out of range is the outcome
    [IndexError], as in Python.  The board handed to [min_max] is a mutable
    object: the search is written in a small state-and-error monad whose
    state is that board. *)

From Stdlib Require Import ZArith Lia.
From stdpp Require Import base decidable option list relations strings pretty.

Local Open Scope Z_scope.

(** ** Cell states: [class GameState(enum.IntEnum)] *)

Module GameState.

Inductive t : Type :=
| empty
| player
| ai.

(** The integer carried by each member of the IntEnum. *)
Definition value (s : t) : Z :=
  match s with
  | empty => 0
  | player => -1
  | ai => 1
  end.

(** Unary minus on a member, as in [-player]. *)
Definition neg (s : t) : t :=
  match s with
  | empty => empty
  | player => ai
  | ai => player
  end.

#[global] Instance eq_dec : EqDecision t.
Proof. solve_decision. Defined.

End GameState.

(** ** Boards, moves, scores *)

Abbreviation board := (list (list GameState.t)).

(** [math.inf], [-math.inf] and the integers they are compared with. *)
Inductive score : Type :=
| NegInf
| Fin (z : Z)
| PosInf.

#[global] Instance score_eq_dec : EqDecision score.
Proof. solve_decision. Defined.

(** [a < b] on scores. *)
Definition score_ltb (a b : score) : bool :=
  match a, b with
  | NegInf, NegInf => false
  | NegInf, _ => true
  | Fin _, NegInf => false
  | Fin x, Fin y => x <? y
  | Fin _, PosInf => true
  | PosInf, _ => false
  end.

(** [a > b] on scores. *)
Definition score_gtb (a b : score) : bool := score_ltb b a.

(** The three-element list [[x, y, score]] that [min_max] returns. *)
Definition result : Type := Z * Z * score.

Definition result_score (r : result) : score := snd r.
Definition result_move (r : result) : Z * Z := fst r.

(** ** Outcomes of a call *)

Inductive outcome (A : Type) : Type :=
| Returns (a : A)
| IndexError
| OutOfFuel.

Arguments Returns {A} a.
Arguments IndexError {A}.
Arguments OutOfFuel {A}.

Definition outcome_bind {A B : Type} (o : outcome A) (k : A → outcome B)
  : outcome B :=
  match o with
  | Returns a => k a
  | IndexError => IndexError
  | OutOfFuel => OutOfFuel
  end.

(** [board[i][x]] *)
Definition get_cell (b : board) (i x : nat) : outcome GameState.t :=
  match b !! i with
  | Some row =>
      match row !! x with
      | Some c => Returns c
      | None => IndexError
      end
  | None => IndexError
  end.

(** [board[i][x] = v] *)
Definition set_cell (b : board) (i x : nat) (v : GameState.t) : outcome board :=
  match b !! i with
  | Some row =>
      if decide (x < length row)%nat
      then Returns (<[i := <[x := v]> row]> b)
      else IndexError
  | None => IndexError
  end.

(** [BoardTemplate] *)
Definition BoardTemplate : board :=
  let e := GameState.empty in [[e; e; e]; [e; e; e]; [e; e; e]].

(** ** Win evaluator *)

(** The list [win_states] built by [determine_win_state]. *)
Definition win_states (b : board) : outcome (list (list GameState.t)) :=
  let line (p q r : nat * nat) : outcome (list GameState.t) :=
    outcome_bind (get_cell b p.1 p.2) (λ a,
    outcome_bind (get_cell b q.1 q.2) (λ c,
    outcome_bind (get_cell b r.1 r.2) (λ d, Returns [a; c; d]))) in
  let two := 2%nat in
  let one := 1%nat in
  let zero := 0%nat in
  outcome_bind (line (zero, zero) (zero, one) (zero, two)) (λ l1,
  outcome_bind (line (one, zero) (one, one) (one, two)) (λ l2,
  outcome_bind (line (two, zero) (two, one) (two, two)) (λ l3,
  outcome_bind (line (zero, zero) (one, zero) (two, zero)) (λ l4,
  outcome_bind (line (zero, one) (one, one) (two, one)) (λ l5,
  outcome_bind (line (zero, two) (one, two) (two, two)) (λ l6,
  outcome_bind (line (zero, zero) (one, one) (two, two)) (λ l7,
  outcome_bind (line (two, zero) (one, one) (zero, two)) (λ l8,
  Returns [l1; l2; l3; l4; l5; l6; l7; l8])))))))).

(** [return [player, player, player] in win_states] *)
Definition determine_win_state (b : board) (player : GameState.t)
  : outcome bool :=
  outcome_bind (win_states b) (λ ws,
  Returns (bool_decide ([player; player; player] ∈ ws))).

(** ** Move generator *)

(** [range(3)] *)
Definition range3 : list nat := [0; 1; 2]%nat.

(** The generator [[i, x] for x in range(3) if board[i][x] == empty]. *)
Fixpoint row_positions (b : board) (i : nat) (xs : list nat)
  : outcome (list (nat * nat)) :=
  match xs with
  | [] => Returns []
  | x :: xs' =>
      outcome_bind (get_cell b i x) (λ c,
      outcome_bind (row_positions b i xs') (λ rest,
      Returns (if decide (c = GameState.empty) then (i, x) :: rest else rest)))
  end.

(** The loop [for i in range(3): possible_positions.extend(...)]. *)
Fixpoint extend_rows (b : board) (rows : list nat)
  (possible_positions : list (nat * nat)) : outcome (list (nat * nat)) :=
  match rows with
  | [] => Returns possible_positions
  | i :: rows' =>
      outcome_bind (row_positions b i range3) (λ new,
      extend_rows b rows' (possible_positions ++ new))
  end.

Definition determine_possible_positions (b : board)
  : outcome (list (nat * nat)) :=
  extend_rows b range3 [].

(** ** Leaf evaluation *)

Definition evaluate (b : board) : outcome Z :=
  outcome_bind (determine_win_state b GameState.ai) (λ w,
  if w then Returns 1
  else
    outcome_bind (determine_win_state b GameState.player) (λ l,
    if l then Returns (-1) else Returns 0)).

(** ** The search monad: a mutable board and an outcome *)

Definition M (A : Type) : Type := board → outcome (A * board).

Definition ret {A : Type} (a : A) : M A := λ tb, Returns (a, tb).

Definition bind {A B : Type} (m : M A) (k : A → M B) : M B :=
  λ tb,
    match m tb with
    | Returns (a, tb') => k a tb'
    | IndexError => IndexError
    | OutOfFuel => OutOfFuel
    end.

(** Run a function that reads the board and leaves it as it is. *)
Definition inspect {A : Type} (f : board → outcome A) : M A :=
  λ tb, outcome_bind (f tb) (λ a, Returns (a, tb)).

(** [test_board[x][y] = v] *)
Definition store (x y : nat) (v : GameState.t) : M unit :=
  λ tb, outcome_bind (set_cell tb x y v) (λ tb', Returns (tt, tb')).

Declare Scope search_scope.
Delimit Scope search_scope with search.
Notation "x <- c ;; k" := (bind c (λ x, k))
  (at level 100, c at next level, right associativity) : search_scope.
Notation "c ;;; k" := (bind c (λ _, k))
  (at level 100, right associativity) : search_scope.

(** A [for] loop whose body updates one local variable. *)
Fixpoint for_each {A S : Type} (l : list A) (body : A → S → M S) (s : S)
  : M S :=
  match l with
  | [] => ret s
  | a :: l' => bind (body a s) (λ s', for_each l' body s')
  end.

(** ** Minimax search *)

(** The cutoff test
    [depth == 0 or determine_win_state(test_board, GameState.player)
     or determine_win_state(test_board, GameState.ai)],
    with Python's left-to-right short circuit. *)
Definition cutoff (depth : Z) (tb : board) : outcome bool :=
  if decide (depth = 0) then Returns true
  else
    outcome_bind (determine_win_state tb GameState.player) (λ w,
    if w then Returns true else determine_win_state tb GameState.ai).

(** The update test
    [player == ai and score[2] > best[2] or player != ai and score[2] < best[2]]. *)
Definition improves (player : GameState.t) (sc best : result) : bool :=
  bool_decide (player = GameState.ai) && score_gtb (result_score sc) (result_score best)
  || negb (bool_decide (player = GameState.ai)) && score_ltb (result_score sc) (result_score best).

(** The initial value of [best]. *)
Definition initial_best (player : GameState.t) : result :=
  if decide (player = GameState.ai) then (-1, -1, NegInf) else (-1, -1, PosInf).

(** One pass through the body of the loop of [min_max] for [cell], where
    [search] stands for the recursive call
    [min_max(test_board, depth - 1, -player)]. *)
Definition try_cell (search : M result) (player : GameState.t)
  (cell : nat * nat) (best : result) : M result :=
  (let x := cell.1 in
   let y := cell.2 in
   store x y player ;;;
   sc <- search ;;
   store x y GameState.empty ;;;
   let sc' : result := (Z.of_nat x, Z.of_nat y, result_score sc) in
   ret (if improves player sc' best then sc' else best))%search.

(** [min_max] with a bound on the number of nested frames: [fuel] frames
    may be open at once, and a call that needs one more is [OutOfFuel]. *)
Fixpoint min_max_fuel (fuel : nat) (depth : Z) (player : GameState.t)
  : M result :=
  match fuel with
  | O => λ _, OutOfFuel
  | S fuel' =>
      (c <- inspect (cutoff depth) ;;
       if c : bool then
         (sc <- inspect evaluate ;; ret (-1, -1, Fin sc))
       else
         (cells <- inspect determine_possible_positions ;;
          for_each cells
            (try_cell (min_max_fuel fuel' (depth - 1) (GameState.neg player))
               player)
            (initial_best player)))%search
  end.

(** The number of cells equal to [GameState.empty]. *)
Definition count_empty (b : board) : nat :=
  length (filter (λ c, c = GameState.empty) (concat b)).

(** [min_max(test_board, depth, player)]: frames enough for every cell that
    can still be filled and for every unit of a positive depth. *)
Definition min_max (test_board : board) (depth : Z) (player : GameState.t)
  : outcome (result * board) :=
  min_max_fuel (S (count_empty test_board + Z.to_nat depth)) depth player test_board.

(** ** Depth selection and the reply of the AI in [process_turn] *)

(** The list handed to [random.choice]. *)
Definition depth_candidates : list Z := [4; 6].

(** [min(random.choice([4, 6]), depth)], for the value [candidate] that
    [random.choice] drew and [depth = len(possible_positions)]. *)
Definition selected_depth (candidate : Z) (remaining : nat) : Z :=
  Z.min candidate (Z.of_nat remaining).

(** Python's reading of a list index: a negative index counts from the
    end, and an index outside [-len, len) raises. *)
Definition py_index (len : nat) (i : Z) : option nat :=
  if decide (0 ≤ i < Z.of_nat len) then Some (Z.to_nat i)
  else if decide (- Z.of_nat len ≤ i < 0) then Some (Z.to_nat (Z.of_nat len + i))
  else None.

(** [_board[x][y] = v] with integer indices. *)
Definition py_set_cell (b : board) (x y : Z) (v : GameState.t)
  : outcome board :=
  match py_index (length b) x with
  | Some i =>
      match b !! i with
      | Some row =>
          match py_index (length row) y with
          | Some j => Returns (<[i := <[j := v]> row]> b)
          | None => IndexError
          end
      | None => IndexError
      end
  | None => IndexError
  end.

(** The reply of the AI in [process_turn], from
    [if not determine_win_state(_board, GameState.player)] to
    [_board[x][y] = GameState.ai]; the search runs on a deep copy, so the
    board it leaves behind is dropped. *)
Definition ai_reply (candidate : Z) (_board : board) : outcome board :=
  outcome_bind (determine_win_state _board GameState.player) (λ w,
  if w then Returns _board
  else
    outcome_bind (determine_possible_positions _board) (λ possible_positions,
    if decide (length possible_positions ≠ 0%nat) then
      let depth := length possible_positions in
      outcome_bind
        (min_max _board (selected_depth candidate depth) GameState.ai)
        (λ move,
           let x := (result_move move.1).1 in
           let y := (result_move move.1).2 in
           py_set_cell _board x y GameState.ai)
    else Returns _board)).

(** ** Vocabulary of the properties *)

(** A board of three rows of three cells. *)
Definition is_3x3 (b : board) : Prop :=
  length b = 3%nat ∧ Forall (λ row, length row = 3%nat) b.

(** The eight fixed lines: three rows, three columns, two diagonals. *)
Definition lines : list (list (nat * nat)) :=
  [ [(0, 0); (0, 1); (0, 2)]; [(1, 0); (1, 1); (1, 2)]; [(2, 0); (2, 1); (2, 2)];
    [(0, 0); (1, 0); (2, 0)]; [(0, 1); (1, 1); (2, 1)]; [(0, 2); (1, 2); (2, 2)];
    [(0, 0); (1, 1); (2, 2)]; [(2, 0); (1, 1); (0, 2)] ]%nat.

(** Every cell of [line] holds [s]. *)
Definition line_uniform (b : board) (s : GameState.t) (line : list (nat * nat))
  : Prop :=
  Forall (λ p, get_cell b p.1 p.2 = Returns s) line.

(** The nine coordinates, row 0 left to right, then row 1, then row 2. *)
Definition row_major : list (nat * nat) :=
  [ (0, 0); (0, 1); (0, 2); (1, 0); (1, 1); (1, 2); (2, 0); (2, 1); (2, 2) ]%nat.

(** The cell at [p] is read without error and is [GameState.empty]. *)
Definition empty_at (b : board) (p : nat * nat) : Prop :=
  get_cell b p.1 p.2 = Returns GameState.empty.

#[global] Instance outcome_eq_dec {A : Type} `{EqDecision A}
  : EqDecision (outcome A).
Proof. solve_decision. Defined.

#[global] Instance empty_at_dec (b : board) (p : nat * nat)
  : Decision (empty_at b p).
Proof. unfold empty_at. apply _. Defined.

(** The number of cells different from [GameState.empty]. *)
Definition occupied_count (b : board) : nat :=
  length (filter (λ c, c ≠ GameState.empty) (concat b)).

(** No cell is [GameState.empty]. *)
Definition board_full (b : board) : Prop :=
  Forall (λ c, c ≠ GameState.empty) (concat b).

(** A score that is one of the integers -1, 0, +1. *)
Definition unit_score (s : score) : Prop :=
  s = Fin (-1) ∨ s = Fin 0 ∨ s = Fin 1.

(** The running [best] after the candidates [cands] have been compared in
    order, starting from [best]. *)
Definition pick (player : GameState.t) (best : result) (cands : list result)
  : result :=
  fold_left (λ best sc, if improves player sc best then sc else best) cands best.

(** The candidate that the loop of [min_max] compares for [cell]: the cell,
    with the score of the search below it. *)
Definition candidate (b : board) (depth : Z) (player : GameState.t)
  (cell : nat * nat) : outcome result :=
  outcome_bind (set_cell b cell.1 cell.2 player) (λ b1,
  outcome_bind (min_max b1 (depth - 1) (GameState.neg player)) (λ rb,
  Returns (Z.of_nat cell.1, Z.of_nat cell.2, result_score rb.1))).

(** The candidates of a list of cells, in order. *)
Fixpoint candidates (b : board) (depth : Z) (player : GameState.t)
  (cells : list (nat * nat)) : outcome (list result) :=
  match cells with
  | [] => Returns []
  | cell :: cells' =>
      outcome_bind (candidate b depth player cell) (λ c,
      outcome_bind (candidates b depth player cells') (λ cs,
      Returns (c :: cs)))
  end.

(** The move that [min_max] returns is the first, in the order of the move
    generator, among the legal moves with the best score for [p]: it is
    the candidate of some legal move, no candidate improves on it, and it
    improves on every candidate before it.  [beaten] says that some
    candidate improves on the value [best] starts from. *)
Definition beaten (p : GameState.t) (cands : list result) : Prop :=
  Exists (λ c, improves p c (initial_best p) = true) cands.

Definition first_best_returned (b : board) (depth : Z) (p : GameState.t)
  : Prop :=
  ∃ cells cands,
    determine_possible_positions b = Returns cells
    ∧ candidates b depth p cells = Returns cands
    ∧ (1 ≤ depth ≤ Z.of_nat (count_empty b) → beaten p cands)
    ∧ (beaten p cands →
       ∃ i cell r,
         cells !! i = Some cell
         ∧ cands !! i = Some r
         ∧ min_max b depth p = Returns (r, b)
         ∧ result_move r = (Z.of_nat cell.1, Z.of_nat cell.2)
         ∧ (∀ c, c ∈ cands → improves p c r = false)
         ∧ (∀ j c, (j < i)%nat → cands !! j = Some c →
                   improves p r c = true)).

(** Two calls one after the other on the same board object: the second
    call receives the board as the first one left it. *)
Definition min_max_twice (test_board : board) (depth : Z) (player : GameState.t)
  : outcome (result * result * board) :=
  outcome_bind (min_max test_board depth player) (λ first,
  outcome_bind (min_max first.2 depth player) (λ second,
  Returns (first.1, second.1, second.2))).

(** ** Outcome of a game, as [process_turn] announces it *)

Inductive winner : Type :=
| Author
| Bot
| Nobody.

(** The chain
    [if determine_win_state(_board, GameState.player): ... elif ... else: winner = None]. *)
Definition determine_winner (_board : board) : outcome (option winner) :=
  outcome_bind (determine_win_state _board GameState.player) (λ a,
  if a then Returns (Some Author)
  else
    outcome_bind (determine_win_state _board GameState.ai) (λ w,
    if w then Returns (Some Bot)
    else
      outcome_bind (determine_possible_positions _board) (λ cells,
      if decide (length cells = 0%nat) then Returns (Some Nobody)
      else Returns None))).

(** ** Games in which the AI searches to the end of the game *)

(** One move of a game: the side to move is [GameState.ai], which plays the
    move that [min_max] returns at a depth equal to the number of legal
    moves, or [GameState.player], which plays any legal move.  Nobody moves
    once [determine_winner] names a winner. *)
Inductive play_step : board * GameState.t → board * GameState.t → Prop :=
| play_ai (b : board) (cells : list (nat * nat)) (r : result) (b0 b' : board) :
    determine_winner b = Returns None →
    determine_possible_positions b = Returns cells →
    min_max b (Z.of_nat (length cells)) GameState.ai = Returns (r, b0) →
    py_set_cell b (result_move r).1 (result_move r).2 GameState.ai = Returns b' →
    play_step (b, GameState.ai) (b', GameState.player)
| play_player (b : board) (cells : list (nat * nat)) (cell : nat * nat) (b' : board) :
    determine_winner b = Returns None →
    determine_possible_positions b = Returns cells →
    cell ∈ cells →
    set_cell b cell.1 cell.2 GameState.player = Returns b' →
    play_step (b, GameState.player) (b', GameState.ai).

(** [c] is the candidate of [cell] in a search to the end of the game:
    the cell, with the score of the search to the end of the game on the
    board with [p] in that cell. *)
Definition child_of (b : board) (p : GameState.t) (cell : nat * nat)
  (c : result) : Prop :=
  ∃ b1 r1,
    set_cell b cell.1 cell.2 p = Returns b1
    ∧ min_max b1 (Z.of_nat (count_empty b1)) (GameState.neg p)
      = Returns (r1, b1)
    ∧ c = (Z.of_nat cell.1, Z.of_nat cell.2, result_score r1).

(** A score that is not below 0: the author does not win. *)
Definition holds (s : score) : Prop := score_ltb s (Fin 0) = false.

(** The search to the end of the game, for [mover], returns a score that
    is not below 0. *)
Definition safe_for_ai (b : board) (mover : GameState.t) : Prop :=
  ∃ r, min_max b (Z.of_nat (count_empty b)) mover = Returns (r, b)
       ∧ holds (result_score r).

(** A certificate that the AI can avoid defeat from [b] with [mover] to
    move, within [n] moves: some move of the AI, and every move of the
    author, leads to a position with such a certificate. *)
Fixpoint can_hold (n : nat) (b : board) (mover : GameState.t) : bool :=
  match determine_win_state b GameState.ai with
  | Returns true => true
  | Returns false =>
      match determine_win_state b GameState.player with
      | Returns false =>
          match determine_possible_positions b with
          | Returns [] => true
          | Returns cells =>
              match n with
              | O => false
              | S n' =>
                  if decide (mover = GameState.ai) then
                    existsb
                      (λ cell,
                         match set_cell b cell.1 cell.2 GameState.ai with
                         | Returns b1 => can_hold n' b1 GameState.player
                         | _ => false
                         end)
                      cells
                  else if decide (mover = GameState.player) then
                    forallb
                      (λ cell,
                         match set_cell b cell.1 cell.2 GameState.player with
                         | Returns b1 => can_hold n' b1 GameState.ai
                         | _ => false
                         end)
                      cells
                  else false
              end
          | _ => false
          end
      | _ => false
      end
  | _ => false
  end.

(** What holds of every position of a game after [k] moves. *)
Definition game_inv (k : nat) (b : board) (mover : GameState.t) : Prop :=
  is_3x3 b
  ∧ (mover = GameState.ai ∨ mover = GameState.player)
  ∧ (count_empty b + k = 9)%nat
  ∧ determine_win_state b GameState.player = Returns false
  ∧ safe_for_ai b mover.

(** ** Message components *)

(** What the module reads and writes of a button and of an action row. *)
Record Button : Type := {
  style : Z;
  label : string;
  custom_id : string;
  disabled : bool
}.

Record ActionRow : Type := {
  components : list Button
}.

(** The text of [label]: the mark U+200E, in UTF-8. *)
Definition label_text : string :=
  String (Ascii.ascii_of_nat 226)
    (String (Ascii.ascii_of_nat 128)
       (String (Ascii.ascii_of_nat 142) EmptyString)).

(** Outcome of the conversions of [process_turn]. *)
Inductive parsed (A : Type) : Type :=
| Parsed (a : A)
| ParseIndexError
| ValueError.

Arguments Parsed {A} a.
Arguments ParseIndexError {A}.
Arguments ValueError {A}.

(** The names that the module takes from naff and from the builtins of
    Python, whose code is not part of the repository: the integers of the
    members [GREY], [BLURPLE] and [RED] of [ButtonStyles],
    [spread_to_rows] on buttons and on action rows, and [int] on a
    string. *)
Class Imports : Type := {
  GREY : Z;
  BLURPLE : Z;
  RED : Z;
  spread_to_rows : list Button → nat → list ActionRow;
  spread_rows : list ActionRow → nat → list ActionRow;
  int : string → parsed Z
}.

(** Rows of at most [n] items, in order. *)
Fixpoint chunk_go {A : Type} (n : nat) (l : list A) (k : nat) (row : list A)
  : list (list A) :=
  match l with
  | [] => match row with [] => [] | _ :: _ => [row] end
  | a :: l' =>
      match k with
      | O => row :: chunk_go n l' (pred n) [a]
      | S k' => chunk_go n l' k' (row ++ [a])
      end
  end.

Definition chunk {A : Type} (n : nat) (l : list A) : list (list A) :=
  chunk_go n l n [].

(** What the properties below assume of the imports: the integers of the
    three styles are those that [determine_board_state] tests for; with
    [max_in_row=3], [spread_to_rows] puts up to fifteen buttons into rows
    of three, in order, and leaves up to five action rows as they are;
    [int] reads a numeral of one decimal digit. *)
Class ImportsSpec `{Imports} : Prop := {
  GREY_value : GREY = 2;
  BLURPLE_value : BLURPLE = 1;
  RED_value : RED = 4;
  spread_to_rows_chunk :
    ∀ buttons, (0 < length buttons ≤ 15)%nat →
               components <$> spread_to_rows buttons 3 = chunk 3 buttons;
  spread_rows_id :
    ∀ rows, (0 < length rows ≤ 5)%nat → spread_rows rows 3 = rows;
  int_decimal :
    ∀ n : nat, (n < 10)%nat → int (pretty n) = Parsed (Z.of_nat n)
}.

(** ** Decoding a message: [determine_board_state] *)

(** [components[i].components[x]] *)
Definition get_button (rows : list ActionRow) (i x : nat) : outcome Button :=
  match rows !! i with
  | Some row =>
      match components row !! x with
      | Some button => Returns button
      | None => IndexError
      end
  | None => IndexError
  end.

(** The chain [if button.style == 2: ... elif ... == 1: ... elif ... == 4: ...]
    on the cell [board[i][x]]. *)
Definition decode_button (button : Button) (i x : nat) (b : board)
  : outcome board :=
  if decide (style button = 2) then set_cell b i x GameState.empty
  else if decide (style button = 1) then set_cell b i x GameState.player
  else if decide (style button = 4) then set_cell b i x GameState.ai
  else Returns b.

(** The loop [for x in range(3)]. *)
Fixpoint decode_cells (rows : list ActionRow) (i : nat) (xs : list nat)
  (b : board) : outcome board :=
  match xs with
  | [] => Returns b
  | x :: xs' =>
      outcome_bind (get_button rows i x) (λ button,
      outcome_bind (decode_button button i x b) (λ b',
      decode_cells rows i xs' b'))
  end.

(** The loop [for i in range(3)]. *)
Fixpoint decode_rows (rows : list ActionRow) (is_ : list nat) (b : board)
  : outcome board :=
  match is_ with
  | [] => Returns b
  | i :: is' =>
      outcome_bind (decode_cells rows i range3 b) (λ b',
      decode_rows rows is' b')
  end.

Definition determine_board_state (rows : list ActionRow) : outcome board :=
  decode_rows rows range3 BoardTemplate.

(** ** Rendering a board: [render_board] *)

(** The chain [if board[i][x] == GameState.empty: ... elif ... else: ...]. *)
Definition button_style `{Imports} (c : GameState.t) : Z :=
  if decide (c = GameState.empty) then GREY
  else if decide (c = GameState.player) then BLURPLE
  else RED.

(** The string [f"tic_tac_toe_button||{i},{x}"]. *)
Definition button_id (i x : nat) : string :=
  "tic_tac_toe_button||" +:+ pretty i +:+ "," +:+ pretty x.

(** The button made for the cell [c] at (i, x). *)
Definition cell_button `{Imports} (disable : bool) (i x : nat)
  (c : GameState.t) : Button :=
  {| style := button_style c;
     label := label_text;
     custom_id := button_id i x;
     disabled := disable |}.

(** The loop [for x in range(3)], appending to [buttons]. *)
Fixpoint render_cells `{Imports} (b : board) (disable : bool) (i : nat)
  (xs : list nat) (buttons : list Button) : outcome (list Button) :=
  match xs with
  | [] => Returns buttons
  | x :: xs' =>
      outcome_bind (get_cell b i x) (λ c,
      render_cells b disable i xs' (buttons ++ [cell_button disable i x c]))
  end.

(** The loop [for i in range(3)]. *)
Fixpoint render_rows `{Imports} (b : board) (disable : bool) (is_ : list nat)
  (buttons : list Button) : outcome (list Button) :=
  match is_ with
  | [] => Returns buttons
  | i :: is' =>
      outcome_bind (render_cells b disable i range3 buttons) (λ buttons',
      render_rows b disable is' buttons')
  end.

Definition render_board `{Imports} (b : board) (disable : bool)
  : outcome (list ActionRow) :=
  outcome_bind (render_rows b disable range3 []) (λ buttons,
  Returns (spread_to_rows buttons 3)).

(** ** The turn of the author: [process_turn] *)

(** [s.split(sep)] for a separator that is not empty: [go] runs through
    [s], with [skip] characters of a separator still to pass over and
    [piece] the part read since the last separator. *)
Fixpoint split_go (sep s : string) (skip : nat) (piece : string)
  : list string :=
  match s with
  | EmptyString => [piece]
  | String c s' =>
      match skip with
      | S k => split_go sep s' k piece
      | O =>
          if String.prefix sep s
          then piece :: split_go sep s' (pred (String.length sep)) EmptyString
          else split_go sep s' 0 (piece +:+ String c EmptyString)
      end
  end.

Definition split (sep s : string) : list string := split_go sep s 0 EmptyString.

(** The two assignments to [button_pos]:
    [(ctx.custom_id.split("||")[-1]).split(",")] and
    [[int(button_pos[0]), int(button_pos[1])]]. *)
Definition button_pos `{Imports} (id : string) : parsed (Z * Z) :=
  match last (split "||" id) with
  | None => ParseIndexError
  | Some tail =>
      let parts := split "," tail in
      match parts !! 0%nat with
      | None => ParseIndexError
      | Some p0 =>
          match int p0 with
          | Parsed i =>
              match parts !! 1%nat with
              | None => ParseIndexError
              | Some p1 =>
                  match int p1 with
                  | Parsed x => Parsed (i, x)
                  | ParseIndexError => ParseIndexError
                  | ValueError => ValueError
                  end
              end
          | ParseIndexError => ParseIndexError
          | ValueError => ValueError
          end
      end
  end.

(** The loop over [ctx.message.mention_users]: the callback goes on only
    if no mentioned user differs from the author.  An exception raised
    while the users are fetched ends the callback too; fetching does not
    fail here. *)
Definition authorised (author : Z) (mention_users : list Z) : bool :=
  forallb (λ user, bool_decide (author = user)) mention_users.

(** [_board[x][y]] with integer indices. *)
Definition py_get_cell (b : board) (x y : Z) : outcome GameState.t :=
  match py_index (length b) x with
  | Some i =>
      match b !! i with
      | Some row =>
          match py_index (length row) y with
          | Some j =>
              match row !! j with
              | Some c => Returns c
              | None => IndexError
              end
          | None => IndexError
          end
      | None => IndexError
      end
  | None => IndexError
  end.

(** The body of [process_turn] from [components = ctx.message.components]
    to the choice of [winner]: [None] when the callback returns because the
    cell is taken, and otherwise the board and the winner. *)
Definition play_turn (candidate : Z) (rows : list ActionRow) (pos : Z * Z)
  : outcome (option (board * option winner)) :=
  outcome_bind (determine_board_state rows) (λ _board,
  outcome_bind (py_get_cell _board pos.1 pos.2) (λ c,
  if decide (c ≠ GameState.empty) then Returns None
  else
    outcome_bind (py_set_cell _board pos.1 pos.2 GameState.player) (λ _board,
    outcome_bind (ai_reply candidate _board) (λ _board,
    outcome_bind (determine_winner _board) (λ w,
    Returns (Some (_board, w))))))).

(** What a call of [process_turn] does to the message. *)
Inductive reply : Type :=
| Ignored
| Edited (w : option winner) (rows : list ActionRow)
| Raised
| Exhausted.

(** [process_turn], for the value [candidate] that [random.choice] draws:
    the author of the click, the users that the message mentions, the
    identifier of the button and the components of the message.  [Raised]
    stands for an exception that leaves the callback, [Exhausted] for a
    search that runs out of frames. *)
Definition process_turn `{Imports} (candidate : Z) (author : Z)
  (mention_users : list Z) (id : string) (rows : list ActionRow) : reply :=
  if authorised author mention_users then
    match button_pos id with
    | Parsed pos =>
        match play_turn candidate rows pos with
        | Returns None => Ignored
        | Returns (Some (_board, w)) =>
            match render_board _board (bool_decide (w ≠ None)) with
            | Returns rendered => Edited w (spread_rows rendered 3)
            | IndexError => Raised
            | OutOfFuel => Exhausted
            end
        | IndexError => Raised
        | OutOfFuel => Exhausted
        end
    | ParseIndexError => Raised
    | ValueError => Raised
    end
  else Ignored.

(** The components of the message that [ttt_start] sends:
    [render_board(copy.deepcopy(BoardTemplate))]. *)
Definition ttt_start `{Imports} : outcome (list ActionRow) :=
  render_board BoardTemplate false.

(** The imports as Discord and Python have them. *)
Definition parse_digit (c : Ascii.ascii) : option Z :=
  let n := Z.of_nat (Ascii.nat_of_ascii c) in
  if decide (48 ≤ n ≤ 57) then Some (n - 48) else None.

Fixpoint parse_digits (s : string) (acc : Z) : option Z :=
  match s with
  | EmptyString => Some acc
  | String c s' =>
      match parse_digit c with
      | Some d => parse_digits s' (10 * acc + d)
      | None => None
      end
  end.

Definition parse_decimal (s : string) : parsed Z :=
  match s with
  | EmptyString => ValueError
  | _ =>
      match parse_digits s 0 with
      | Some n => Parsed n
      | None => ValueError
      end
  end.

(** Imports with the integers of Discord's button styles, rows of buttons
    made by [chunk], action rows left alone, and decimal numerals. *)
Definition discord : Imports := {|
  GREY := 2;
  BLURPLE := 1;
  RED := 4;
  spread_to_rows := λ buttons n, Build_ActionRow <$> chunk n buttons;
  spread_rows := λ rows _, rows;
  int := parse_decimal
|}.

(** ** Vocabulary of the properties of the message and of the turn *)

(** The cell that a style decodes to: 1 is the author, 4 the AI, and every
    other integer leaves the cell of the template, which is empty. *)
Definition cell_of_style (st : Z) : GameState.t :=
  if decide (st = 1) then GameState.player
  else if decide (st = 4) then GameState.ai
  else GameState.empty.

(** Some line holds [s] in its three cells. *)
Definition has_line (b : board) (s : GameState.t) : Prop :=
  Exists (line_uniform b s) lines.

(** Every button of the three rows of three is there. *)
Definition grid_3x3 (rows : list ActionRow) : Prop :=
  Forall (λ p, ∃ button, get_button rows p.1 p.2 = Returns button) row_major.

(** The board has at least three rows, the first three of at least three
    cells. *)
Definition covers_3x3 (b : board) : Prop :=
  Forall (λ p, ∃ c, get_cell b p.1 p.2 = Returns c) row_major.

(** The two boards hold the same in every cell that is not empty in the
    first. *)
Definition keeps_pieces (b b' : board) : Prop :=
  ∀ i x c, get_cell b i x = Returns c → c ≠ GameState.empty →
           get_cell b' i x = Returns c.

(** A message with a green and a link button among the nine. *)
Definition odd_rows : list ActionRow :=
  let button st := {| style := st; label := label_text;
                       custom_id := EmptyString; disabled := false |} in
  [ {| components := [button 1; button 2; button 3] |};
    {| components := [button 4; button 5; button 2] |};
    {| components := [button 2; button 1; button 4] |} ].

(** The board with the two sides exchanged. *)
Definition swap_sides (b : board) : board :=
  (λ row : list GameState.t, GameState.neg <$> row) <$> b.

(** The score seen from the other side. *)
Definition negate (s : score) : score :=
  match s with
  | NegInf => PosInf
  | Fin z => Fin (- z)
  | PosInf => NegInf
  end.

(** The same move, with the score seen from the other side. *)
Definition mirror (r : result) : result :=
  (result_move r, negate (result_score r)).

(** ** Positions used as examples *)

(** The author has two in the top row, the AI holds the centre. *)
Definition two_in_a_row_board : board :=
  [[GameState.player; GameState.player; GameState.empty];
   [GameState.empty; GameState.ai; GameState.empty];
   [GameState.empty; GameState.empty; GameState.empty]].

(** A full board that nobody has won. *)
Definition drawn_board : board :=
  [[GameState.player; GameState.ai; GameState.player];
   [GameState.player; GameState.ai; GameState.ai];
   [GameState.ai; GameState.player; GameState.player]].

(** Two empty cells, and no way left for either side to win. *)
Definition two_left_board : board :=
  [[GameState.empty; GameState.empty; GameState.player];
   [GameState.player; GameState.ai; GameState.ai];
   [GameState.ai; GameState.player; GameState.player]].

(** One empty cell, whose filling wins nothing. *)
Definition one_left_board : board :=
  [[GameState.player; GameState.ai; GameState.player];
   [GameState.player; GameState.ai; GameState.ai];
   [GameState.ai; GameState.player; GameState.empty]].

(** The message that shows [two_in_a_row_board], its buttons enabled. *)
Definition two_in_a_row_rows : list ActionRow :=
  match @render_board discord two_in_a_row_board false with
  | Returns rows => rows
  | _ => []
  end.

(** The AI has the top row, the author the bottom-right cell, and cells
    are left. *)
Definition ai_line_board : board :=
  [[GameState.ai; GameState.ai; GameState.ai];
   [GameState.player; GameState.player; GameState.empty];
   [GameState.empty; GameState.empty; GameState.player]].

(** The AI can complete the top row at (0,2). *)
Definition ai_threat_board : board :=
  [[GameState.ai; GameState.ai; GameState.empty];
   [GameState.player; GameState.player; GameState.empty];
   [GameState.empty; GameState.empty; GameState.empty]].

(** Two rows only. *)
Definition short_board : board :=
  [[GameState.empty; GameState.empty; GameState.empty];
   [GameState.empty; GameState.empty; GameState.empty]].

(** The empty board after the first move of the AI, at (0,0). *)
Definition opened_board : board :=
  [[GameState.ai; GameState.empty; GameState.empty];
   [GameState.empty; GameState.empty; GameState.empty];
   [GameState.empty; GameState.empty; GameState.empty]].

(** [opened_board] after the author has answered in the centre. *)
Definition answered_board : board :=
  [[GameState.ai; GameState.empty; GameState.empty];
   [GameState.empty; GameState.player; GameState.empty];
   [GameState.empty; GameState.empty; GameState.empty]].

(** * Properties *)

(** ** Shape of a board *)

Lemma is_3x3_inv (b : board) :
  is_3x3 b →
  ∃ a0 a1 a2 b0 b1 b2 c0 c1 c2,
    b = [[a0; a1; a2]; [b0; b1; b2]; [c0; c1; c2]].
Proof.
  intros [Hlen Hrows].
  destruct b as [|r0 [|r1 [|r2 [|r3 b]]]]; try discriminate Hlen.
  apply Forall_cons in Hrows as [H0 Hrows].
  apply Forall_cons in Hrows as [H1 Hrows].
  apply Forall_cons in Hrows as [H2 _].
  destruct r0 as [|a0 [|a1 [|a2 [|? ?]]]]; try discriminate H0.
  destruct r1 as [|b0 [|b1 [|b2 [|? ?]]]]; try discriminate H1.
  destruct r2 as [|c0 [|c1 [|c2 [|? ?]]]]; try discriminate H2.
  by exists a0, a1, a2, b0, b1, b2, c0, c1, c2.
Qed.

Lemma is_3x3_intro (a0 a1 a2 b0 b1 b2 c0 c1 c2 : GameState.t) :
  is_3x3 [[a0; a1; a2]; [b0; b1; b2]; [c0; c1; c2]].
Proof. split; [reflexivity|]. repeat constructor. Qed.

Lemma BoardTemplate_3x3 : is_3x3 BoardTemplate.
Proof. apply is_3x3_intro. Qed.

(** Name the nine cells of a board known to be three by three. *)
Ltac name_cells H :=
  let a0 := fresh "a0" in let a1 := fresh "a1" in let a2 := fresh "a2" in
  let b0 := fresh "b0" in let b1 := fresh "b1" in let b2 := fresh "b2" in
  let c0 := fresh "c0" in let c1 := fresh "c1" in let c2 := fresh "c2" in
  apply is_3x3_inv in H
    as (a0 & a1 & a2 & b0 & b1 & b2 & c0 & c1 & c2 & ->).

(** ** Win evaluator *)

Lemma determine_win_state_cells (a0 a1 a2 b0 b1 b2 c0 c1 c2 s : GameState.t) :
  determine_win_state [[a0; a1; a2]; [b0; b1; b2]; [c0; c1; c2]] s
  = Returns (bool_decide ([s; s; s] ∈
      [ [a0; a1; a2]; [b0; b1; b2]; [c0; c1; c2];
        [a0; b0; c0]; [a1; b1; c1]; [a2; b2; c2];
        [a0; b1; c2]; [c0; b1; a2] ])).
Proof. reflexivity. Qed.

Lemma determine_win_state_total (b : board) (s : GameState.t) :
  is_3x3 b → ∃ w, determine_win_state b s = Returns w.
Proof. intros H. name_cells H. eexists. apply determine_win_state_cells. Qed.

Lemma determine_win_state_lines (b : board) (s : GameState.t) :
  is_3x3 b →
  ∃ w, determine_win_state b s = Returns w
       ∧ (w = true ↔ Exists (line_uniform b s) lines).
Proof.
  intros H. name_cells H.
  eexists. split; [apply determine_win_state_cells|].
  rewrite bool_decide_eq_true.
  unfold lines, line_uniform.
  rewrite !Exists_cons, Exists_nil, !Forall_cons, !Forall_nil.
  rewrite !elem_of_cons, elem_of_nil.
  cbn [get_cell lookup list_lookup fst snd].
  split.
  - intros H. repeat (destruct H as [H|H]); try done;
      injection H as -> -> ->; tauto.
  - intros H. repeat (destruct H as [H|H]); try done;
      destruct H as (H1 & H2 & H3 & _);
      injection H1 as ->; injection H2 as ->; injection H3 as ->; tauto.
Qed.

(** C7: on a three-by-three board, [determine_win_state] returns, and it
    returns [true] exactly when one of the eight fixed lines (three rows,
    three columns, two diagonals) holds the side in all three cells. *)
Theorem determine_win_state_iff_line (b : board) (s : GameState.t) :
  is_3x3 b →
  ∃ w, determine_win_state b s = Returns w
       ∧ (w = true ↔ Exists (line_uniform b s) lines).
Proof. apply determine_win_state_lines. Qed.

Lemma determine_win_state_iff_line_witness :
  ∃ w, determine_win_state
         [[GameState.player; GameState.ai; GameState.empty];
          [GameState.ai; GameState.player; GameState.empty];
          [GameState.empty; GameState.ai; GameState.player]] GameState.player
       = Returns w
       ∧ (w = true ↔
          Exists (line_uniform
                    [[GameState.player; GameState.ai; GameState.empty];
                     [GameState.ai; GameState.player; GameState.empty];
                     [GameState.empty; GameState.ai; GameState.player]]
                    GameState.player) lines).
Proof. apply determine_win_state_iff_line. apply is_3x3_intro. Defined.

(** ** Move generator *)

Lemma empty_at_iff (b : board) (i x : nat) (row : list GameState.t)
  (c : GameState.t) :
  b !! i = Some row → row !! x = Some c →
  empty_at b (i, x) ↔ c = GameState.empty.
Proof.
  intros Hi Hx. unfold empty_at, get_cell. cbn [fst snd].
  rewrite Hi, Hx. split; [by intros [= ->] | by intros ->].
Qed.

Lemma row_positions_filter (b : board) (i : nat) (row : list GameState.t) :
  b !! i = Some row → length row = 3%nat →
  row_positions b i range3
  = Returns (filter (empty_at b) [(i, 0); (i, 1); (i, 2)]%nat).
Proof.
  intros Hi Hlen.
  destruct row as [|c0 [|c1 [|c2 [|? ?]]]]; try discriminate Hlen.
  unfold range3, row_positions, get_cell. rewrite Hi.
  cbn [lookup list_lookup outcome_bind].
  rewrite !filter_cons, filter_nil.
  rewrite (decide_ext _ _ _ _ (empty_at_iff b i 0 _ c0 Hi eq_refl)).
  rewrite (decide_ext _ _ _ _ (empty_at_iff b i 1 _ c1 Hi eq_refl)).
  rewrite (decide_ext _ _ _ _ (empty_at_iff b i 2 _ c2 Hi eq_refl)).
  by repeat case_decide.
Qed.

Lemma row_count_filter (b : board) (i : nat) (row : list GameState.t) :
  b !! i = Some row → length row = 3%nat →
  length (filter (empty_at b) [(i, 0); (i, 1); (i, 2)]%nat)
  = length (filter (λ c, c = GameState.empty) row).
Proof.
  intros Hi Hlen.
  destruct row as [|c0 [|c1 [|c2 [|? ?]]]]; try discriminate Hlen.
  rewrite !filter_cons, !filter_nil.
  rewrite (decide_ext _ _ _ _ (empty_at_iff b i 0 _ c0 Hi eq_refl)).
  rewrite (decide_ext _ _ _ _ (empty_at_iff b i 1 _ c1 Hi eq_refl)).
  rewrite (decide_ext _ _ _ _ (empty_at_iff b i 2 _ c2 Hi eq_refl)).
  by repeat case_decide.
Qed.

Lemma determine_possible_positions_filter (b : board) :
  is_3x3 b →
  determine_possible_positions b = Returns (filter (empty_at b) row_major).
Proof.
  intros [Hlen Hrows].
  destruct b as [|r0 [|r1 [|r2 [|? ?]]]]; try discriminate Hlen.
  apply Forall_cons in Hrows as [H0 Hrows].
  apply Forall_cons in Hrows as [H1 Hrows].
  apply Forall_cons in Hrows as [H2 _].
  unfold determine_possible_positions, range3 at 1, extend_rows.
  rewrite (row_positions_filter _ 0 r0), (row_positions_filter _ 1 r1),
    (row_positions_filter _ 2 r2) by done.
  cbn [outcome_bind app].
  change row_major
    with ([(0, 0); (0, 1); (0, 2)] ++ [(1, 0); (1, 1); (1, 2)]
          ++ [(2, 0); (2, 1); (2, 2)])%nat.
  by rewrite !filter_app, app_assoc.
Qed.

Lemma length_positions_count_empty (b : board) :
  is_3x3 b → length (filter (empty_at b) row_major) = count_empty b.
Proof.
  intros [Hlen Hrows].
  destruct b as [|r0 [|r1 [|r2 [|? ?]]]]; try discriminate Hlen.
  apply Forall_cons in Hrows as [H0 Hrows].
  apply Forall_cons in Hrows as [H1 Hrows].
  apply Forall_cons in Hrows as [H2 _].
  change row_major
    with ([(0, 0); (0, 1); (0, 2)] ++ [(1, 0); (1, 1); (1, 2)]
          ++ [(2, 0); (2, 1); (2, 2)])%nat.
  unfold count_empty. cbn [concat].
  rewrite !filter_app, !length_app, filter_nil.
  rewrite (row_count_filter _ 0 r0), (row_count_filter _ 1 r1),
    (row_count_filter _ 2 r2) by done.
  cbn [length]. lia.
Qed.

Lemma length_filter_split {A : Type} (P : A → Prop) `{∀ x, Decision (P x)}
  (l : list A) :
  (length (filter P l) + length (filter (λ x, ¬ P x) l) = length l)%nat.
Proof.
  induction l as [|x l IH]; [reflexivity|].
  rewrite !filter_cons. repeat case_decide; cbn [length]; try lia; tauto.
Qed.

Lemma count_empty_occupied (b : board) :
  is_3x3 b → (count_empty b + occupied_count b = 9)%nat.
Proof.
  intros H. unfold count_empty, occupied_count.
  rewrite length_filter_split. by name_cells H.
Qed.

Lemma count_empty_zero_full (b : board) :
  count_empty b = 0%nat ↔ board_full b.
Proof.
  unfold count_empty, board_full.
  induction (concat b) as [|c l IH]; [by split; [constructor|]|].
  rewrite filter_cons, Forall_cons. case_decide; cbn [length].
  - split; [lia | tauto].
  - rewrite IH. tauto.
Qed.

(** C8: on a three-by-three board, [determine_possible_positions] returns
    exactly the coordinates of the empty cells, in row-major order; their
    number and the number of occupied cells add up to 9; and the list is
    empty exactly when the board is full. *)
Theorem determine_possible_positions_spec (b : board) :
  is_3x3 b →
  ∃ cells,
    determine_possible_positions b = Returns cells
    ∧ cells = filter (empty_at b) row_major
    ∧ (length cells + occupied_count b = 9)%nat
    ∧ (cells = [] ↔ board_full b).
Proof.
  intros H. eexists. split; [by apply determine_possible_positions_filter|].
  split; [reflexivity|].
  rewrite length_positions_count_empty by done.
  split; [by apply count_empty_occupied|].
  rewrite <- count_empty_zero_full, <- length_positions_count_empty by done.
  symmetry. apply length_zero_iff_nil.
Qed.

Lemma determine_possible_positions_spec_witness :
  ∃ cells,
    determine_possible_positions
      [[GameState.player; GameState.player; GameState.empty];
       [GameState.empty; GameState.ai; GameState.empty];
       [GameState.empty; GameState.empty; GameState.empty]] = Returns cells
    ∧ cells = filter (empty_at
        [[GameState.player; GameState.player; GameState.empty];
         [GameState.empty; GameState.ai; GameState.empty];
         [GameState.empty; GameState.empty; GameState.empty]]) row_major
    ∧ (length cells + occupied_count
        [[GameState.player; GameState.player; GameState.empty];
         [GameState.empty; GameState.ai; GameState.empty];
         [GameState.empty; GameState.empty; GameState.empty]] = 9)%nat
    ∧ (cells = [] ↔ board_full
        [[GameState.player; GameState.player; GameState.empty];
         [GameState.empty; GameState.ai; GameState.empty];
         [GameState.empty; GameState.empty; GameState.empty]]).
Proof. apply determine_possible_positions_spec. apply is_3x3_intro. Defined.

(** ** Writing a cell and writing it back *)

Lemma empty_at_lookup (b : board) (x y : nat) :
  empty_at b (x, y) ↔
  ∃ row, b !! x = Some row ∧ row !! y = Some GameState.empty.
Proof.
  unfold empty_at, get_cell. cbn [fst snd]. split.
  - destruct (b !! x) as [row|]; [|done].
    destruct (row !! y) as [c|] eqn:Hy; [|done].
    intros [= ->]. by exists row.
  - by intros (row & -> & ->).
Qed.

Lemma set_cell_empty_at (b : board) (x y : nat) (v : GameState.t) :
  empty_at b (x, y) →
  ∃ row, b !! x = Some row ∧ row !! y = Some GameState.empty
         ∧ set_cell b x y v = Returns (<[x := <[y := v]> row]> b).
Proof.
  intros (row & Hx & Hy)%empty_at_lookup. exists row.
  split; [done|]. split; [done|].
  unfold set_cell. rewrite Hx.
  apply lookup_lt_Some in Hy. by rewrite decide_True.
Qed.

(** Writing a side into an empty cell and then [GameState.empty] back
    gives the board as it was. *)
Lemma set_cell_restore (b : board) (x y : nat) (v : GameState.t) :
  empty_at b (x, y) →
  ∃ b1, set_cell b x y v = Returns b1
        ∧ set_cell b1 x y GameState.empty = Returns b.
Proof.
  intros (row & Hx & Hy & Hset)%(set_cell_empty_at _ _ _ v).
  eexists. split; [exact Hset|].
  unfold set_cell.
  rewrite list_lookup_insert_eq by (by eapply lookup_lt_Some).
  rewrite length_insert.
  rewrite decide_True by (by eapply lookup_lt_Some).
  rewrite list_insert_insert_eq, list_insert_insert_eq.
  by rewrite (list_insert_id row), (list_insert_id b).
Qed.

Lemma set_cell_3x3 (b b1 : board) (x y : nat) (v : GameState.t) :
  is_3x3 b → set_cell b x y v = Returns b1 → is_3x3 b1.
Proof.
  intros [Hlen Hrows]. unfold set_cell.
  destruct (b !! x) as [row|] eqn:Hx; [|done].
  case_decide; [|done]. intros [= <-]. split.
  - by rewrite length_insert.
  - apply Forall_insert; [done|]. rewrite length_insert.
    eapply Forall_lookup_1 in Hrows; [|exact Hx]. done.
Qed.

Lemma count_insert_row (row : list GameState.t) (y : nat) (v : GameState.t) :
  row !! y = Some GameState.empty → v ≠ GameState.empty →
  length (filter (λ c, c = GameState.empty) row)
  = S (length (filter (λ c, c = GameState.empty) (<[y := v]> row))).
Proof.
  revert y. induction row as [|c row IH]; intros y Hy Hv; [done|].
  destruct y as [|y]; cbn [insert list_insert].
  - injection Hy as ->.
    by rewrite filter_cons_True, filter_cons_False.
  - rewrite !filter_cons. case_decide; cbn [length]; by rewrite (IH y).
Qed.

Lemma count_empty_insert (b : board) (x y : nat) (row : list GameState.t)
  (v : GameState.t) :
  b !! x = Some row → row !! y = Some GameState.empty →
  v ≠ GameState.empty →
  count_empty b = S (count_empty (<[x := <[y := v]> row]> b)).
Proof.
  unfold count_empty. revert x.
  induction b as [|r b IH]; intros x Hx Hy Hv; [done|].
  destruct x as [|x]; cbn [insert list_insert concat].
  - injection Hx as ->. rewrite !filter_app, !length_app.
    by rewrite (count_insert_row row y v).
  - rewrite !filter_app, !length_app.
    rewrite (IH x Hx Hy Hv). apply Nat.add_succ_r.
Qed.

(** Filling an empty cell with a side leaves one empty cell fewer. *)
Lemma set_cell_count_empty (b b1 : board) (x y : nat) (v : GameState.t) :
  empty_at b (x, y) → v ≠ GameState.empty →
  set_cell b x y v = Returns b1 →
  count_empty b = S (count_empty b1).
Proof.
  intros (row & Hx & Hy & Hset)%(set_cell_empty_at _ _ _ v) Hv.
  rewrite Hset. intros [= <-]. by apply count_empty_insert.
Qed.

(** ** The cells that the move generator lists are empty *)

Lemma row_positions_empty (b : board) (i : nat) (xs : list nat)
  (l : list (nat * nat)) :
  row_positions b i xs = Returns l → Forall (empty_at b) l.
Proof.
  revert l. induction xs as [|x xs IH]; intros l; cbn [row_positions].
  - intros [= <-]. constructor.
  - destruct (get_cell b i x) as [c| |] eqn:Hc; [|done..].
    cbn [outcome_bind].
    destruct (row_positions b i xs) as [rest| |]; [|done..].
    cbn [outcome_bind]. intros [= <-].
    case_decide; [|by apply IH].
    constructor; [|by apply IH]. unfold empty_at. cbn [fst snd]. congruence.
Qed.

Lemma extend_rows_empty (b : board) (rows : list nat)
  (acc l : list (nat * nat)) :
  Forall (empty_at b) acc →
  extend_rows b rows acc = Returns l → Forall (empty_at b) l.
Proof.
  revert acc. induction rows as [|i rows IH]; intros acc Hacc;
    cbn [extend_rows].
  - by intros [= <-].
  - destruct (row_positions b i range3) as [new| |] eqn:Hnew; [|done..].
    cbn [outcome_bind]. apply IH. apply Forall_app. split; [done|].
    by eapply row_positions_empty.
Qed.

Lemma determine_possible_positions_empty (b : board)
  (cells : list (nat * nat)) :
  determine_possible_positions b = Returns cells → Forall (empty_at b) cells.
Proof. apply extend_rows_empty. constructor. Qed.

(** ** One frame of the search *)

Lemma min_max_fuel_S (fuel : nat) (depth : Z) (player : GameState.t)
  (b : board) :
  min_max_fuel (S fuel) depth player b
  = outcome_bind (cutoff depth b) (λ c,
      if c : bool then
        outcome_bind (evaluate b) (λ v, Returns ((-1, -1, Fin v), b))
      else
        outcome_bind (determine_possible_positions b) (λ cells,
          for_each cells
            (try_cell (min_max_fuel fuel (depth - 1) (GameState.neg player))
               player)
            (initial_best player) b)).
Proof.
  cbn [min_max_fuel]. unfold bind, inspect.
  destruct (cutoff depth b) as [[|]| |]; cbn [outcome_bind]; [| |done..].
  - by destruct (evaluate b).
  - by destruct (determine_possible_positions b).
Qed.

(** The body of the loop, when the cell can be written, the search below
    returns and leaves its board alone, and the cell can be written back. *)
Lemma try_cell_run (search : M result) (player : GameState.t)
  (cell : nat * nat) (best r1 : result) (b b1 : board) :
  set_cell b cell.1 cell.2 player = Returns b1 →
  search b1 = Returns (r1, b1) →
  set_cell b1 cell.1 cell.2 GameState.empty = Returns b →
  try_cell search player cell best b
  = Returns
      (let sc := (Z.of_nat cell.1, Z.of_nat cell.2, result_score r1) in
       if improves player sc best then sc else best, b).
Proof.
  intros Hset Hsearch Hback. unfold try_cell, bind, store, ret.
  rewrite Hset. cbn [outcome_bind]. rewrite Hsearch, Hback. done.
Qed.

Lemma try_cell_frame (search : M result) (player : GameState.t)
  (cell : nat * nat) (best r : result) (b b' : board) :
  empty_at b cell →
  (∀ b1 r1 b1', search b1 = Returns (r1, b1') → b1' = b1) →
  try_cell search player cell best b = Returns (r, b') → b' = b.
Proof.
  destruct cell as [x y].
  intros (b1 & Hset & Hback)%(set_cell_restore _ _ _ player) Hsearch.
  unfold try_cell, bind, store, ret. cbn [fst snd].
  rewrite Hset. cbn [outcome_bind].
  destruct (search b1) as [[r1 b1']| |] eqn:Hrun; [|done..].
  apply Hsearch in Hrun as ->. rewrite Hback. cbn [outcome_bind].
  by intros [= _ <-].
Qed.

Lemma for_each_frame (search : M result) (player : GameState.t)
  (cells : list (nat * nat)) (best r : result) (b b' : board) :
  Forall (empty_at b) cells →
  (∀ b1 r1 b1', search b1 = Returns (r1, b1') → b1' = b1) →
  for_each cells (try_cell search player) best b = Returns (r, b') → b' = b.
Proof.
  intros Hcells Hsearch. revert best.
  induction Hcells as [|cell cells Hcell _ IH]; intros best;
    cbn [for_each]; unfold bind.
  - by intros [= _ <-].
  - destruct (try_cell search player cell best b) as [[r1 b1]| |] eqn:Hrun;
      [|done..].
    apply try_cell_frame in Hrun as ->; [|done..]. apply IH.
Qed.

(** Whatever the shape of the board, the side and the depth: a search that
    returns hands the board back as it received it. *)
Lemma min_max_fuel_frame (fuel : nat) (depth : Z) (player : GameState.t)
  (b b' : board) (r : result) :
  min_max_fuel fuel depth player b = Returns (r, b') → b' = b.
Proof.
  revert depth player b b' r.
  induction fuel as [|fuel IH]; intros depth player b b' r; [done|].
  rewrite min_max_fuel_S.
  destruct (cutoff depth b) as [[|]| |]; cbn [outcome_bind]; [| |done..].
  - destruct (evaluate b); cbn [outcome_bind]; [|done..]. by intros [= _ <-].
  - destruct (determine_possible_positions b) as [cells| |] eqn:Hcells;
      cbn [outcome_bind]; [|done..].
    apply for_each_frame.
    + by apply determine_possible_positions_empty.
    + intros b1 r1 b1'. apply IH.
Qed.

(** ** The search returns *)

Lemma cutoff_total (depth : Z) (b : board) :
  is_3x3 b → ∃ c, cutoff depth b = Returns c.
Proof.
  intros H. unfold cutoff. case_decide; [by eexists|].
  destruct (determine_win_state_total b GameState.player H) as [w ->].
  cbn [outcome_bind]. destruct w; [by eexists|].
  by apply determine_win_state_total.
Qed.

Lemma evaluate_total (b : board) :
  is_3x3 b →
  ∃ v, evaluate b = Returns v ∧ (v = -1 ∨ v = 0 ∨ v = 1).
Proof.
  intros H. unfold evaluate.
  destruct (determine_win_state_total b GameState.ai H) as [w ->].
  destruct (determine_win_state_total b GameState.player H) as [l ->].
  cbn [outcome_bind]. destruct w, l; eexists; (split; [reflexivity|]); lia.
Qed.

Lemma neg_not_empty (p : GameState.t) :
  p ≠ GameState.empty → GameState.neg p ≠ GameState.empty.
Proof. by destruct p. Qed.

(** On a three-by-three board and for a side that is not
    [GameState.empty], the search returns, whatever the depth, as soon as
    it may open one frame more than there are empty cells; the result does
    not depend on how many more, and the board is handed back unchanged. *)
Lemma min_max_fuel_total (n : nat) :
  ∀ (b : board) (depth : Z) (player : GameState.t),
    count_empty b = n → is_3x3 b → player ≠ GameState.empty →
    ∃ r, ∀ fuel, (n < fuel)%nat →
           min_max_fuel fuel depth player b = Returns (r, b).
Proof.
  induction (lt_wf n) as [n _ IH]. intros b depth player Hn Hb Hp.
  destruct (cutoff_total depth b Hb) as [c Hc].
  destruct c.
  { destruct (evaluate_total b Hb) as (v & Hv & _).
    exists (-1, -1, Fin v). intros [|fuel] Hfuel; [lia|].
    by rewrite min_max_fuel_S, Hc; cbn [outcome_bind]; rewrite Hv. }
  pose proof (determine_possible_positions_filter b Hb) as Hcells.
  pose proof (determine_possible_positions_empty b _ Hcells) as Hempty.
  assert (∀ cells best, Forall (empty_at b) cells →
            ∃ r, ∀ fuel, (n ≤ fuel)%nat →
              for_each cells
                (try_cell
                   (min_max_fuel fuel (depth - 1) (GameState.neg player))
                   player) best b = Returns (r, b)) as Hloop.
  { intros cells best Hall. revert best.
    induction Hall as [|[x y] cells Hcell _ IHcells]; intros best.
    - by exists best.
    - destruct (set_cell_restore b x y player Hcell) as (b1 & Hset & Hback).
      pose proof (set_cell_count_empty _ _ _ _ _ Hcell Hp Hset) as Hcount.
      destruct (IH (count_empty b1) ltac:(lia) b1 (depth - 1)
                  (GameState.neg player) eq_refl
                  (set_cell_3x3 _ _ _ _ _ Hb Hset) (neg_not_empty _ Hp))
        as [r1 Hr1].
      destruct (IHcells
                  (let sc := (Z.of_nat x, Z.of_nat y, result_score r1) in
                   if improves player sc best then sc else best))
        as [r Hr].
      exists r. intros fuel Hfuel. cbn [for_each]. unfold bind.
      rewrite (try_cell_run _ _ (x, y) best r1 b b1 Hset
                 (Hr1 fuel ltac:(lia)) Hback).
      by apply Hr. }
  destruct (Hloop _ (initial_best player) Hempty) as [r Hr].
  exists r. intros [|fuel] Hfuel; [lia|].
  rewrite min_max_fuel_S, Hc. cbn [outcome_bind].
  rewrite Hcells. cbn [outcome_bind]. apply Hr. lia.
Qed.

Lemma min_max_returns (b : board) (depth : Z) (player : GameState.t) :
  is_3x3 b → player ≠ GameState.empty →
  ∃ r, min_max b depth player = Returns (r, b).
Proof.
  intros Hb Hp.
  destruct (min_max_fuel_total _ b depth player eq_refl Hb Hp) as [r Hr].
  exists r. apply Hr. lia.
Qed.

Lemma min_max_fuel_stable (fuel : nat) (b : board) (depth : Z)
  (player : GameState.t) :
  is_3x3 b → player ≠ GameState.empty → (count_empty b < fuel)%nat →
  min_max_fuel fuel depth player b = min_max b depth player.
Proof.
  intros Hb Hp Hfuel.
  destruct (min_max_fuel_total _ b depth player eq_refl Hb Hp) as [r Hr].
  unfold min_max. rewrite !Hr by lia. done.
Qed.

(** ** The comparison of candidates *)

Lemma improves_ai (sc best : result) :
  improves GameState.ai sc best
  = score_gtb (result_score sc) (result_score best).
Proof.
  unfold improves. rewrite bool_decide_eq_true_2 by done.
  cbn [negb andb]. apply orb_false_r.
Qed.

Lemma improves_other (player : GameState.t) (sc best : result) :
  player ≠ GameState.ai →
  improves player sc best
  = score_ltb (result_score sc) (result_score best).
Proof.
  intros Hp. unfold improves. by rewrite bool_decide_eq_false_2.
Qed.

Lemma score_ltb_trans (a b c : score) :
  score_ltb a b = true → score_ltb b c = true → score_ltb a c = true.
Proof.
  destruct a, b, c; cbn [score_ltb]; try done.
  rewrite !Z.ltb_lt. lia.
Qed.

Lemma score_ltb_leb_trans (a b c : score) :
  score_ltb a b = true → score_ltb c b = false → score_ltb a c = true.
Proof.
  destruct a, b, c; cbn [score_ltb]; try done.
  rewrite !Z.ltb_lt, Z.ltb_ge. lia.
Qed.

Lemma score_leb_ltb_trans (a b c : score) :
  score_ltb b a = false → score_ltb b c = true → score_ltb a c = true.
Proof.
  destruct a, b, c; cbn [score_ltb]; try done.
  rewrite !Z.ltb_lt, Z.ltb_ge. lia.
Qed.

Lemma score_leb_trans (a b c : score) :
  score_ltb b a = false → score_ltb c b = false → score_ltb c a = false.
Proof.
  destruct a, b, c; cbn [score_ltb]; try done.
  rewrite !Z.ltb_ge. lia.
Qed.

Lemma score_ltb_irrefl (a : score) : score_ltb a a = false.
Proof. destruct a; cbn [score_ltb]; try done. apply Z.ltb_irrefl. Qed.

(** [improves] is a strict order on scores, the same for every side that is
    not [GameState.ai]. *)
Lemma improves_trans (p : GameState.t) (a b c : result) :
  improves p a b = true → improves p b c = true → improves p a c = true.
Proof.
  destruct (decide (p = GameState.ai)) as [->|Hp].
  - rewrite !improves_ai. unfold score_gtb. intros. by eapply score_ltb_trans.
  - rewrite !improves_other by done. apply score_ltb_trans.
Qed.

Lemma improves_strict_weak (p : GameState.t) (a b c : result) :
  improves p a b = true → improves p c b = false → improves p a c = true.
Proof.
  destruct (decide (p = GameState.ai)) as [->|Hp].
  - rewrite !improves_ai. unfold score_gtb. intros.
    by eapply score_leb_ltb_trans.
  - rewrite !improves_other by done. apply score_ltb_leb_trans.
Qed.

Lemma improves_weak_weak (p : GameState.t) (a b c : result) :
  improves p b a = false → improves p c b = false → improves p c a = false.
Proof.
  destruct (decide (p = GameState.ai)) as [->|Hp].
  - rewrite !improves_ai. unfold score_gtb. intros Hba Hcb.
    by apply (score_leb_trans _ (result_score b)).
  - rewrite !improves_other by done. intros Hba Hcb.
    by apply (score_leb_trans _ (result_score b)).
Qed.

Lemma improves_irrefl (p : GameState.t) (a : result) :
  improves p a a = false.
Proof.
  destruct (decide (p = GameState.ai)) as [->|Hp].
  - rewrite improves_ai. apply score_ltb_irrefl.
  - rewrite improves_other by done. apply score_ltb_irrefl.
Qed.

Lemma improves_initial (p : GameState.t) (c : result) :
  unit_score (result_score c) → improves p c (initial_best p) = true.
Proof.
  intros Hc. unfold initial_best.
  destruct (decide (p = GameState.ai)) as [->|Hp].
  - rewrite improves_ai. by destruct Hc as [-> | [-> | ->]].
  - rewrite improves_other by done. by destruct Hc as [-> | [-> | ->]].
Qed.

Lemma pick_cons (p : GameState.t) (best c : result) (cs : list result) :
  pick p best (c :: cs)
  = pick p (if improves p c best then c else best) cs.
Proof. reflexivity. Qed.

(** What the comparisons leave in [best]: nothing in the list improves on
    it, and it is either the initial value, which nothing improved on, or
    a candidate that improved on the initial value and on every candidate
    before it. *)
Lemma pick_spec (p : GameState.t) (cands : list result) :
  ∀ best,
    let r := pick p best cands in
    improves p best r = false
    ∧ (∀ c, c ∈ cands → improves p c r = false)
    ∧ ((r = best ∧ ∀ c, c ∈ cands → improves p c best = false)
       ∨ ∃ i, cands !! i = Some r
              ∧ improves p r best = true
              ∧ ∀ j c, (j < i)%nat → cands !! j = Some c →
                       improves p r c = true).
Proof.
  induction cands as [|c cs IH]; intros best; cbn zeta.
  { cbn [pick fold_left]. split; [apply improves_irrefl|].
    split; [by intros c ?%elem_of_nil|]. left.
    split; [done|]. by intros c ?%elem_of_nil. }
  rewrite pick_cons.
  destruct (improves p c best) eqn:Hc.
  - destruct (IH c) as (Hbest & Hall & Hwhich).
    split; [|split].
    + destruct (improves p best (pick p c cs)) eqn:Hb; [|done].
      by rewrite (improves_trans p _ _ _ Hc Hb) in Hbest.
    + intros c' [->|Hin]%elem_of_cons; [done|by apply Hall].
    + right. destruct Hwhich as [[Hr _] | (i & Hi & Hri & Hbefore)].
      * exists 0%nat. rewrite Hr. split; [done|].
        split; [done|]. intros j c' Hj. lia.
      * exists (S i). split; [done|].
        split; [by eapply improves_trans|].
        intros [|j] c' Hj; cbn [lookup list_lookup].
        -- by intros [= <-].
        -- apply Hbefore. lia.
  - destruct (IH best) as (Hbest & Hall & Hwhich).
    split; [done|]. split.
    + intros c' [->|Hin]%elem_of_cons; [|by apply Hall].
      by eapply improves_weak_weak.
    + destruct Hwhich as [[Hr Hnone] | (i & Hi & Hri & Hbefore)].
      * left. split; [done|].
        intros c' [->|Hin]%elem_of_cons; [done|by apply Hnone].
      * right. exists (S i). split; [done|]. split; [done|].
        intros [|j] c' Hj; cbn [lookup list_lookup].
        -- intros [= <-]. by eapply improves_strict_weak.
        -- apply Hbefore. lia.
Qed.

(** If some candidate improves on the initial value, the comparisons end
    on the first candidate with the best score. *)
Lemma pick_first_extremal (p : GameState.t) (best : result)
  (cands : list result) :
  Exists (λ c, improves p c best = true) cands →
  ∃ i, cands !! i = Some (pick p best cands)
       ∧ (∀ c, c ∈ cands → improves p c (pick p best cands) = false)
       ∧ (∀ j c, (j < i)%nat → cands !! j = Some c →
                 improves p (pick p best cands) c = true).
Proof.
  intros (c & Hin & Hc)%Exists_exists.
  destruct (pick_spec p cands best) as (_ & Hall & [[_ Hnone] | Hi]).
  - rewrite (Hnone c Hin) in Hc. done.
  - destruct Hi as (i & Hi & _ & Hbefore). by exists i.
Qed.

(** ** The search as a comparison of candidates *)

Lemma candidate_inv (b : board) (depth : Z) (p : GameState.t)
  (cell : nat * nat) (c : result) :
  candidate b depth p cell = Returns c →
  ∃ b1 r1 b1',
    set_cell b cell.1 cell.2 p = Returns b1
    ∧ min_max b1 (depth - 1) (GameState.neg p) = Returns (r1, b1')
    ∧ c = (Z.of_nat cell.1, Z.of_nat cell.2, result_score r1).
Proof.
  unfold candidate.
  destruct (set_cell b cell.1 cell.2 p) as [b1| |] eqn:Hset; [|done..].
  cbn [outcome_bind].
  destruct (min_max b1 (depth - 1) (GameState.neg p)) as [[r1 b1']| |]
    eqn:Hr1; [|done..].
  cbn [outcome_bind fst]. intros [= <-]. by exists b1, r1, b1'.
Qed.

Lemma candidates_Forall2 (b : board) (depth : Z) (p : GameState.t)
  (cells : list (nat * nat)) :
  ∀ cands,
    candidates b depth p cells = Returns cands →
    Forall2 (λ cell c, candidate b depth p cell = Returns c) cells cands.
Proof.
  induction cells as [|cell cells IH]; intros cands; cbn [candidates].
  - intros [= <-]. constructor.
  - destruct (candidate b depth p cell) as [c| |] eqn:Hc; [|done..].
    cbn [outcome_bind].
    destruct (candidates b depth p cells) as [cs| |]; [|done..].
    cbn [outcome_bind]. intros [= <-]. constructor; [done|by apply IH].
Qed.

(** The loop of [min_max] compares, in order, the candidates of the cells
    it runs through, and hands the board back. *)
Lemma for_each_candidates (fuel : nat) (b : board) (depth : Z)
  (p : GameState.t) (cells : list (nat * nat)) :
  is_3x3 b → p ≠ GameState.empty → (count_empty b ≤ fuel)%nat →
  Forall (empty_at b) cells →
  ∃ cands,
    candidates b depth p cells = Returns cands
    ∧ ∀ best,
        for_each cells
          (try_cell (min_max_fuel fuel (depth - 1) (GameState.neg p)) p)
          best b
        = Returns (pick p best cands, b).
Proof.
  intros Hb Hp Hfuel Hcells.
  induction Hcells as [|[x y] cells Hcell _ (cands & Hcands & Hloop)].
  { exists []. by split. }
  destruct (set_cell_restore b x y p Hcell) as (b1 & Hset & Hback).
  pose proof (set_cell_count_empty _ _ _ _ _ Hcell Hp Hset) as Hcount.
  pose proof (set_cell_3x3 _ _ _ _ _ Hb Hset) as Hb1.
  destruct (min_max_returns b1 (depth - 1) (GameState.neg p) Hb1
              (neg_not_empty _ Hp)) as [r1 Hr1].
  exists ((Z.of_nat x, Z.of_nat y, result_score r1) :: cands). split.
  - cbn [candidates]. unfold candidate. cbn [fst snd].
    rewrite Hset. cbn [outcome_bind]. rewrite Hr1. cbn [outcome_bind].
    by rewrite Hcands.
  - intros best. cbn [for_each]. unfold bind.
    rewrite (try_cell_run _ _ (x, y) best r1 b b1 Hset); [|..|done].
    + cbn zeta. rewrite pick_cons. apply Hloop.
    + rewrite min_max_fuel_stable; [done..|by apply neg_not_empty|lia].
Qed.

Lemma cutoff_false_depth (depth : Z) (b : board) :
  cutoff depth b = Returns false →
  depth ≠ 0
  ∧ determine_win_state b GameState.player = Returns false
  ∧ determine_win_state b GameState.ai = Returns false.
Proof.
  unfold cutoff. case_decide; [done|].
  by destruct (determine_win_state b GameState.player) as [[|]| |].
Qed.

Lemma cutoff_false_intro (depth : Z) (b : board) :
  depth ≠ 0 →
  determine_win_state b GameState.player = Returns false →
  determine_win_state b GameState.ai = Returns false →
  cutoff depth b = Returns false.
Proof.
  intros Hd Hp Ha. unfold cutoff. rewrite decide_False by done.
  by rewrite Hp.
Qed.

(** At the cutoff one frame is enough: the result is the sentinel move with
    the evaluation of the board. *)
Lemma min_max_fuel_cutoff (fuel : nat) (b : board) (depth : Z)
  (p : GameState.t) :
  cutoff depth b = Returns true →
  min_max_fuel (S fuel) depth p b
  = outcome_bind (evaluate b) (λ v, Returns ((-1, -1, Fin v), b)).
Proof. intros Hc. by rewrite min_max_fuel_S, Hc. Qed.

(** Past the cutoff, [min_max] returns what is left in [best] after the
    candidates of the legal moves have been compared in row-major order. *)
Lemma min_max_unfold (b : board) (depth : Z) (p : GameState.t) :
  is_3x3 b → p ≠ GameState.empty → cutoff depth b = Returns false →
  ∃ cands,
    candidates b depth p (filter (empty_at b) row_major) = Returns cands
    ∧ min_max b depth p = Returns (pick p (initial_best p) cands, b).
Proof.
  intros Hb Hp Hc.
  pose proof (determine_possible_positions_filter b Hb) as Hcells.
  pose proof (determine_possible_positions_empty b _ Hcells) as Hempty.
  destruct (for_each_candidates (count_empty b + Z.to_nat depth) b depth p
              _ Hb Hp ltac:(lia) Hempty) as (cands & Hcands & Hloop).
  exists cands. split; [done|].
  unfold min_max. rewrite min_max_fuel_S, Hc. cbn [outcome_bind].
  rewrite Hcells. cbn [outcome_bind]. apply Hloop.
Qed.

(** ** Scores and moves when the depth does not exceed the empty cells *)

Lemma pick_initial_in (p : GameState.t) (cands : list result) :
  cands ≠ [] →
  Forall (λ c, unit_score (result_score c)) cands →
  pick p (initial_best p) cands ∈ cands.
Proof.
  intros Hne Hall.
  destruct (pick_first_extremal p (initial_best p) cands) as (i & Hi & _).
  - destruct cands as [|c cs]; [done|]. apply Exists_cons_hd.
    apply improves_initial. by apply Forall_cons in Hall as [? _].
  - by eapply list_elem_of_lookup_2.
Qed.

Lemma candidates_unit_score (b : board) (depth : Z) (p : GameState.t)
  (cells : list (nat * nat)) (cands : list result) :
  (∀ cell b1 r1 b1',
     empty_at b cell →
     set_cell b cell.1 cell.2 p = Returns b1 →
     min_max b1 (depth - 1) (GameState.neg p) = Returns (r1, b1') →
     unit_score (result_score r1)) →
  Forall (empty_at b) cells →
  candidates b depth p cells = Returns cands →
  Forall (λ c, unit_score (result_score c)) cands.
Proof.
  intros Hbelow Hempty Hpairs%candidates_Forall2.
  induction Hpairs as [|cell c cells cs Hcand _ IHpairs]; [constructor|].
  apply Forall_cons in Hempty as [Hcell Hempty].
  constructor; [|by apply IHpairs].
  apply candidate_inv in Hcand as (b1 & r1 & b1' & Hset & Hr1 & ->).
  cbn [result_score snd]. by eapply Hbelow.
Qed.

Lemma min_max_within_depth (n : nat) :
  ∀ (b : board) (depth : Z) (p : GameState.t),
    count_empty b = n → is_3x3 b → p ≠ GameState.empty →
    0 ≤ depth ≤ Z.of_nat n →
    ∃ r, min_max b depth p = Returns (r, b)
         ∧ unit_score (result_score r)
         ∧ (cutoff depth b = Returns false →
            ∃ cell, empty_at b cell
                    ∧ result_move r = (Z.of_nat cell.1, Z.of_nat cell.2)).
Proof.
  induction (lt_wf n) as [n _ IH]. intros b depth p Hn Hb Hp Hd.
  destruct (cutoff_total depth b Hb) as [[|] Hc].
  { destruct (evaluate_total b Hb) as (v & Hv & Hrange).
    exists (-1, -1, Fin v). split; [|split].
    - unfold min_max. by rewrite min_max_fuel_cutoff, Hv.
    - unfold unit_score. cbn [result_score snd].
      destruct Hrange as [-> | [-> | ->]]; tauto.
    - intros Hfalse. congruence. }
  destruct (min_max_unfold b depth p Hb Hp Hc) as (cands & Hcands & Hr).
  apply cutoff_false_depth in Hc as (Hd0 & _).
  pose proof (candidates_Forall2 _ _ _ _ _ Hcands) as Hpairs.
  pose proof (determine_possible_positions_filter b Hb) as Hcells.
  apply determine_possible_positions_empty in Hcells as Hempty.
  assert (Forall (λ c, unit_score (result_score c)) cands) as Hunit.
  { eapply candidates_unit_score; [|exact Hempty|exact Hcands].
    intros [x y] b1 r1 b1' Hcell Hset Hr1. cbn [fst snd] in Hset.
    pose proof (set_cell_count_empty _ _ _ _ _ Hcell Hp Hset) as Hcount.
    destruct (IH (count_empty b1) ltac:(lia) b1 (depth - 1)
                (GameState.neg p) eq_refl (set_cell_3x3 _ _ _ _ _ Hb Hset)
                (neg_not_empty _ Hp) ltac:(lia)) as (r & Hr' & Hscore & _).
    rewrite Hr' in Hr1. by injection Hr1 as <- _. }
  assert (cands ≠ []) as Hne.
  { intros ->. apply Forall2_nil_inv_r in Hpairs.
    pose proof (length_positions_count_empty b Hb) as Hlen.
    rewrite Hpairs in Hlen. cbn [length] in Hlen. lia. }
  pose proof (pick_initial_in p cands Hne Hunit) as Hin.
  exists (pick p (initial_best p) cands). split; [done|]. split.
  - by eapply Forall_forall in Hunit.
  - intros _. apply list_elem_of_lookup_1 in Hin as [i Hi].
    destruct (Forall2_lookup_r _ _ _ _ _ Hpairs Hi) as (cell & Hcell & Hcand).
    exists cell. split.
    + eapply Forall_lookup_1 in Hempty; done.
    + by apply candidate_inv in Hcand as (b1 & r1 & b1' & _ & _ & ->).
Qed.

(** ** A full board and a positive depth *)

Lemma positions_full (b : board) :
  is_3x3 b → board_full b → determine_possible_positions b = Returns [].
Proof.
  intros Hb Hfull. rewrite determine_possible_positions_filter by done.
  f_equal. apply length_zero_iff_nil.
  rewrite length_positions_count_empty by done.
  by apply count_empty_zero_full.
Qed.

Lemma evaluate_wins (b : board) (wa wp : bool) :
  determine_win_state b GameState.ai = Returns wa →
  determine_win_state b GameState.player = Returns wp →
  evaluate b = Returns (if wa then 1 else if wp then -1 else 0).
Proof. intros Ha Hp. unfold evaluate. rewrite Ha, Hp. by destruct wa, wp. Qed.

(** C1 fails as stated: on a full board that nobody has won, at depth 1,
    the search of the AI returns the score [-math.inf] it started from, not
    the evaluation 0 of the board. *)
Lemma min_max_full_board_not_draw :
  is_3x3 drawn_board ∧ board_full drawn_board
  ∧ evaluate drawn_board = Returns 0
  ∧ min_max drawn_board 1 GameState.ai
    = Returns ((-1, -1, NegInf), drawn_board)
  ∧ ¬ ∃ move b',
        min_max drawn_board 1 GameState.ai = Returns ((move, Fin 0), b').
Proof.
  split; [apply is_3x3_intro|].
  split; [unfold board_full, drawn_board; cbn [concat app];
          repeat constructor; done|].
  split; [reflexivity|]. split; [reflexivity|].
  intros (move & b' & H). vm_compute in H. discriminate H.
Qed.

(** C1, amended: on a full three-by-three board and at a depth greater
    than 0, the search makes no recursive call (one frame is enough) and
    returns the sentinel move; its score is the evaluation of the board
    when a side has a winning line, and otherwise the value [best] started
    from, [-math.inf] for the AI and [+math.inf] for any other side. *)
Theorem min_max_full_board (b : board) (depth : Z) (p : GameState.t) :
  is_3x3 b → board_full b → 0 < depth →
  ∃ wp wa v,
    determine_win_state b GameState.player = Returns wp
    ∧ determine_win_state b GameState.ai = Returns wa
    ∧ evaluate b = Returns v
    ∧ min_max b depth p
      = Returns (if wp || wa then (-1, -1, Fin v) else initial_best p, b)
    ∧ min_max_fuel 1 depth p b = min_max b depth p.
Proof.
  intros Hb Hfull Hd.
  destruct (determine_win_state_total b GameState.player Hb) as [wp Hwp].
  destruct (determine_win_state_total b GameState.ai Hb) as [wa Hwa].
  exists wp, wa, (if wa then 1 else if wp then -1 else 0).
  pose proof (evaluate_wins b wa wp Hwa Hwp) as Hv.
  split; [done|]. split; [done|]. split; [done|].
  assert (∀ fuel, min_max_fuel (S fuel) depth p b
            = Returns (if wp || wa
                       then (-1, -1, Fin (if wa then 1 else if wp then -1 else 0))
                       else initial_best p, b)) as Hrun.
  { intros fuel. rewrite min_max_fuel_S. unfold cutoff.
    rewrite decide_False by lia. rewrite Hwp. cbn [outcome_bind].
    destruct wp; cbn [outcome_bind orb].
    - by rewrite Hv.
    - rewrite Hwa. cbn [outcome_bind]. destruct wa; cbn [outcome_bind].
      + by rewrite Hv.
      + by rewrite positions_full. }
  unfold min_max. by rewrite !Hrun.
Qed.

Lemma min_max_full_board_witness :
  ∃ wp wa v,
    determine_win_state drawn_board GameState.player = Returns wp
    ∧ determine_win_state drawn_board GameState.ai = Returns wa
    ∧ evaluate drawn_board = Returns v
    ∧ min_max drawn_board 2 GameState.player
      = Returns (if wp || wa then (-1, -1, Fin v)
                 else initial_best GameState.player, drawn_board)
    ∧ min_max_fuel 1 2 GameState.player drawn_board
      = min_max drawn_board 2 GameState.player.
Proof.
  apply min_max_full_board.
  - apply is_3x3_intro.
  - unfold board_full, drawn_board. cbn [concat app].
    repeat constructor; done.
  - lia.
Defined.

(** ** The end-to-end scenario *)

(** C2: on the board with the author on (0,0) and (0,1) and the AI in the
    centre, the search of the AI at depth 9 returns the move (0,2), and
    with the AI on (0,2) the author has no winning line. *)
Theorem min_max_blocks_top_row :
  min_max two_in_a_row_board 9 GameState.ai
  = Returns ((0, 2, Fin (-1)), two_in_a_row_board)
  ∧ ∃ b', py_set_cell two_in_a_row_board 0 2 GameState.ai = Returns b'
          ∧ determine_win_state b' GameState.player = Returns false.
Proof.
  split; [by vm_compute|].
  eexists. split; [reflexivity|]. reflexivity.
Qed.

(** ** Depth 0 and below *)

(** C4 fails as stated: at depth -1, with one empty cell left, the search
    does not stop at the board it is given, whose evaluation is 0: it
    needs a second frame, plays the cell and returns it with the score
    [+math.inf]. *)
Lemma min_max_negative_depth_recurses :
  is_3x3 one_left_board
  ∧ evaluate one_left_board = Returns 0
  ∧ min_max_fuel 1 (-1) GameState.ai one_left_board = OutOfFuel
  ∧ min_max one_left_board (-1) GameState.ai
    = Returns ((2, 2, PosInf), one_left_board)
  ∧ min_max one_left_board (-1) GameState.ai
    ≠ Returns ((-1, -1, Fin 0), one_left_board).
Proof.
  split; [apply is_3x3_intro|]. split; [reflexivity|].
  split; [reflexivity|]. split; [reflexivity|]. by vm_compute.
Qed.

(** C4, amended: at depth 0, on every three-by-three board and for every
    side, the search returns the sentinel move with the evaluation of the
    board, and one frame is enough for it: no recursive call is made. *)
Theorem min_max_depth_zero (b : board) (p : GameState.t) :
  is_3x3 b →
  ∃ v, evaluate b = Returns v
       ∧ min_max b 0 p = Returns ((-1, -1, Fin v), b)
       ∧ min_max_fuel 1 0 p b = Returns ((-1, -1, Fin v), b).
Proof.
  intros Hb. destruct (evaluate_total b Hb) as (v & Hv & _).
  exists v. split; [done|]. unfold min_max.
  by rewrite !min_max_fuel_cutoff, Hv.
Qed.

Lemma min_max_depth_zero_witness :
  ∃ v, evaluate two_in_a_row_board = Returns v
       ∧ min_max two_in_a_row_board 0 GameState.ai
         = Returns ((-1, -1, Fin v), two_in_a_row_board)
       ∧ min_max_fuel 1 0 GameState.ai two_in_a_row_board
         = Returns ((-1, -1, Fin v), two_in_a_row_board).
Proof. apply min_max_depth_zero. apply is_3x3_intro. Defined.

(** ** Ties *)

(** C3 fails as stated: with two cells left, no win in sight and depth 3,
    both legal moves of the AI have the score [-math.inf], the best there
    is, and the search returns neither of them but the sentinel move. *)
Lemma min_max_tie_at_initial_returns_sentinel :
  is_3x3 two_left_board
  ∧ determine_possible_positions two_left_board
    = Returns [(0, 0); (0, 1)]%nat
  ∧ candidates two_left_board 3 GameState.ai [(0, 0); (0, 1)]%nat
    = Returns [(0, 0, NegInf); (0, 1, NegInf)]
  ∧ min_max two_left_board 3 GameState.ai
    = Returns ((-1, -1, NegInf), two_left_board).
Proof.
  split; [apply is_3x3_intro|]. split; [reflexivity|].
  split; by vm_compute.
Qed.

Lemma first_best_returned_holds (b : board) (depth : Z) (p : GameState.t) :
  is_3x3 b → p ≠ GameState.empty → cutoff depth b = Returns false →
  first_best_returned b depth p.
Proof.
  intros Hb Hp Hc.
  destruct (min_max_unfold b depth p Hb Hp Hc) as (cands & Hcands & Hr).
  pose proof (determine_possible_positions_filter b Hb) as Hcells.
  pose proof (determine_possible_positions_empty b _ Hcells) as Hempty.
  pose proof (candidates_Forall2 _ _ _ _ _ Hcands) as Hpairs.
  exists (filter (empty_at b) row_major), cands.
  split; [done|]. split; [done|]. split.
  - intros Hd.
    assert (Forall (λ c, unit_score (result_score c)) cands) as Hunit.
    { eapply candidates_unit_score; [|exact Hempty|exact Hcands].
      intros [x y] b1 r1 b1' Hcell Hset Hr1. cbn [fst snd] in Hset.
      pose proof (set_cell_count_empty _ _ _ _ _ Hcell Hp Hset) as Hcount.
      destruct (min_max_within_depth (count_empty b1) b1 (depth - 1)
                  (GameState.neg p) eq_refl
                  (set_cell_3x3 _ _ _ _ _ Hb Hset) (neg_not_empty _ Hp)
                  ltac:(lia)) as (r & Hr' & Hscore & _).
      rewrite Hr' in Hr1. by injection Hr1 as <- _. }
    destruct cands as [|c cs].
    + apply Forall2_nil_inv_r in Hpairs.
      pose proof (length_positions_count_empty b Hb) as Hlen.
      rewrite Hpairs in Hlen. cbn [length] in Hlen. lia.
    + apply Exists_cons_hd. apply improves_initial.
      by apply Forall_cons in Hunit as [? _].
  - intros Hbeaten.
    destruct (pick_first_extremal p (initial_best p) cands Hbeaten)
      as (i & Hi & Hbest & Hfirst).
    destruct (Forall2_lookup_r _ _ _ _ _ Hpairs Hi)
      as (cell & Hcell & Hcand).
    exists i, cell, (pick p (initial_best p) cands).
    split; [done|]. split; [done|]. split; [done|].
    split; [|done].
    by apply candidate_inv in Hcand as (b1 & r1 & b1' & _ & _ & ->).
Qed.

(** C3, amended: the running best is replaced only on a strict
    improvement, so, whenever some legal move improves on the value [best]
    starts from (as is the case when the depth lies between 1 and the
    number of empty cells), the move returned is the first one in row-major
    order among the moves with the best score; and on the empty board, at
    depth 1, the AI is returned the move (0,0). *)
Theorem min_max_first_best :
  (∀ (b : board) (depth : Z) (p : GameState.t),
     is_3x3 b → p ≠ GameState.empty → cutoff depth b = Returns false →
     first_best_returned b depth p)
  ∧ min_max BoardTemplate 1 GameState.ai
    = Returns ((0, 0, Fin 0), BoardTemplate).
Proof. split; [apply first_best_returned_holds|reflexivity]. Qed.

Lemma min_max_first_best_witness :
  first_best_returned two_in_a_row_board 4 GameState.ai.
Proof.
  apply (proj1 min_max_first_best).
  - apply is_3x3_intro.
  - done.
  - reflexivity.
Defined.

(** ** The board after the search *)

(** C5: when [min_max] returns, the board it was given is as it was at
    entry, so a second call with the same arguments returns the same
    result; and on a three-by-three board, for either side, it does
    return. *)
Theorem min_max_restores_board (b : board) (depth : Z) (p : GameState.t) :
  (∀ r b', min_max b depth p = Returns (r, b') →
           b' = b ∧ min_max_twice b depth p = Returns (r, r, b))
  ∧ (is_3x3 b → p ≠ GameState.empty →
     ∃ r, min_max b depth p = Returns (r, b)
          ∧ min_max_twice b depth p = Returns (r, r, b)).
Proof.
  assert (∀ r b', min_max b depth p = Returns (r, b') →
            b' = b ∧ min_max_twice b depth p = Returns (r, r, b)) as Hframe.
  { intros r b' Hr.
    pose proof (min_max_fuel_frame _ _ _ _ _ _ Hr) as ->.
    split; [done|]. unfold min_max_twice.
    rewrite Hr. cbn [outcome_bind fst snd]. by rewrite Hr. }
  split; [done|]. intros Hb Hp.
  destruct (min_max_returns b depth p Hb Hp) as [r Hr].
  exists r. split; [done|]. by apply (Hframe r b).
Qed.

Lemma min_max_restores_board_witness :
  ∃ r, min_max two_in_a_row_board 4 GameState.ai
       = Returns (r, two_in_a_row_board)
       ∧ min_max_twice two_in_a_row_board 4 GameState.ai
         = Returns (r, r, two_in_a_row_board).
Proof.
  apply (proj2 (min_max_restores_board two_in_a_row_board 4 GameState.ai)).
  - apply is_3x3_intro.
  - done.
Defined.

(** ** Depth selection *)

(** In [process_turn], the depth handed to [min_max] is [selected_depth]
    of the number of legal moves, and it is at least 1. *)
Lemma ai_reply_depth (candidate : Z) (b : board) (cells : list (nat * nat)) :
  determine_win_state b GameState.player = Returns false →
  determine_possible_positions b = Returns cells →
  cells ≠ [] →
  candidate ∈ depth_candidates →
  ai_reply candidate b
  = outcome_bind
      (min_max b (selected_depth candidate (length cells)) GameState.ai)
      (λ move, py_set_cell b (result_move move.1).1 (result_move move.1).2
                 GameState.ai)
  ∧ 1 ≤ selected_depth candidate (length cells) ≤ Z.of_nat (length cells).
Proof.
  intros Hw Hcells Hne Hcand. split.
  - unfold ai_reply. rewrite Hw. cbn [outcome_bind]. rewrite Hcells.
    cbn [outcome_bind]. rewrite decide_True; [done|].
    by destruct cells.
  - unfold selected_depth. destruct cells as [|cell cells]; [done|].
    cbn [length]. unfold depth_candidates in Hcand.
    apply elem_of_cons in Hcand as [->|Hcand]; [lia|].
    apply elem_of_cons in Hcand as [->|Hcand]; [lia|].
    by apply elem_of_nil in Hcand.
Qed.

(** C9: the candidates are 4 and 6; the selected depth is the minimum of
    the candidate and the number of remaining moves, which it therefore
    never exceeds, and with two moves remaining it is at most 2; and this
    is the depth that [process_turn] hands to the search: whenever the
    search is called (the author has no line and a move remains), it is
    called with the minimum of the candidate and the number of legal
    moves, which lies between 1 and that number; so with two moves
    remaining on [two_left_board] either candidate gives the reply of the
    search of depth 2, the move (0,0). *)
Theorem selected_depth_clamped :
  depth_candidates = [4; 6]
  ∧ (∀ remaining : nat,
       Forall (λ c, selected_depth c remaining = Z.min c (Z.of_nat remaining)
                    ∧ selected_depth c remaining ≤ Z.of_nat remaining)
         depth_candidates)
  ∧ Forall (λ c, selected_depth c 2 ≤ 2) depth_candidates
  ∧ (∀ (candidate : Z) (b : board) (cells : list (nat * nat)),
       candidate ∈ depth_candidates →
       determine_win_state b GameState.player = Returns false →
       determine_possible_positions b = Returns cells →
       cells ≠ [] →
       ai_reply candidate b
       = outcome_bind
           (min_max b (Z.min candidate (Z.of_nat (length cells)))
              GameState.ai)
           (λ move, py_set_cell b (result_move move.1).1
                      (result_move move.1).2 GameState.ai)
       ∧ 1 ≤ Z.min candidate (Z.of_nat (length cells))
         ≤ Z.of_nat (length cells))
  ∧ Forall (λ c, ai_reply c two_left_board
                 = outcome_bind (min_max two_left_board 2 GameState.ai)
                     (λ move, py_set_cell two_left_board
                                (result_move move.1).1
                                (result_move move.1).2 GameState.ai)
                 ∧ ai_reply c two_left_board
                   = Returns [[GameState.ai; GameState.empty;
                               GameState.player];
                              [GameState.player; GameState.ai; GameState.ai];
                              [GameState.ai; GameState.player;
                               GameState.player]])
      depth_candidates.
Proof.
  split; [reflexivity|]. split; [|split; [|split]].
  - intros remaining. apply Forall_forall. intros c _.
    unfold selected_depth. split; [reflexivity|]. apply Z.le_min_r.
  - apply Forall_forall. intros c _. unfold selected_depth. lia.
  - intros candidate b cells Hcand Hw Hcells Hne.
    exact (ai_reply_depth candidate b cells Hw Hcells Hne Hcand).
  - unfold depth_candidates.
    apply Forall_cons_2; [split; reflexivity|].
    apply Forall_cons_2; [split; reflexivity|]. apply Forall_nil_2.
Qed.

Lemma selected_depth_clamped_witness :
  ai_reply 6 two_left_board
  = outcome_bind
      (min_max two_left_board
         (Z.min 6 (Z.of_nat (length [(0, 0); (0, 1)]%nat))) GameState.ai)
      (λ move, py_set_cell two_left_board (result_move move.1).1
                 (result_move move.1).2 GameState.ai)
  ∧ 1 ≤ Z.min 6 (Z.of_nat (length [(0, 0); (0, 1)]%nat))
    ≤ Z.of_nat (length [(0, 0); (0, 1)]%nat).
Proof.
  apply (proj1 (proj2 (proj2 (proj2 selected_depth_clamped))) 6
           two_left_board [(0, 0); (0, 1)]%nat).
  - unfold depth_candidates. apply list_elem_of_further, list_elem_of_here.
  - reflexivity.
  - reflexivity.
  - discriminate.
Defined.

(** ** The move handed to the caller *)

Lemma py_index_of_nat (len i : nat) :
  (i < len)%nat → py_index len (Z.of_nat i) = Some i.
Proof.
  intros Hi. unfold py_index. rewrite decide_True by lia.
  by rewrite Nat2Z.id.
Qed.

Lemma py_set_cell_of_nat (b : board) (x y : nat) (v : GameState.t) :
  empty_at b (x, y) →
  py_set_cell b (Z.of_nat x) (Z.of_nat y) v = set_cell b x y v.
Proof.
  intros (row & Hx & Hy & ->)%(set_cell_empty_at _ _ _ v).
  unfold py_set_cell.
  rewrite py_index_of_nat by (by eapply lookup_lt_Some).
  rewrite Hx. by rewrite py_index_of_nat by (by eapply lookup_lt_Some).
Qed.

(** Within the depth that the empty cells allow, the move returned is an
    empty cell, the score is a unit score, and the cell can be written
    through the integer indices of the result. *)
Lemma min_max_move_in_range (b : board) (depth : Z) (p : GameState.t) :
  is_3x3 b → p ≠ GameState.empty →
  determine_win_state b GameState.player = Returns false →
  determine_win_state b GameState.ai = Returns false →
  1 ≤ depth ≤ Z.of_nat (count_empty b) →
  ∃ x y s b',
    min_max b depth p = Returns ((Z.of_nat x, Z.of_nat y, s), b)
    ∧ empty_at b (x, y)
    ∧ unit_score s
    ∧ py_set_cell b (Z.of_nat x) (Z.of_nat y) GameState.ai = Returns b'
    ∧ count_empty b = S (count_empty b').
Proof.
  intros Hb Hp Hwp Hwa Hd.
  destruct (min_max_within_depth _ b depth p eq_refl Hb Hp ltac:(lia))
    as ([[mx my] s] & Hr & Hs & Hmove).
  destruct Hmove as ([x y] & Hcell & Hxy);
    [apply cutoff_false_intro; [lia|done..]|].
  cbn [result_move fst snd] in Hxy. injection Hxy as -> ->.
  destruct (set_cell_restore b x y GameState.ai Hcell) as (b' & Hset & _).
  exists x, y, s, b'. split; [done|]. split; [done|]. split; [done|].
  split; [by rewrite py_set_cell_of_nat|].
  by apply (set_cell_count_empty b b' x y GameState.ai).
Qed.

(** C10: on a three-by-three board that neither side has won, for either
    side and a depth between 1 and the number of empty cells, [min_max]
    returns the coordinates of an empty cell of the board (natural
    numbers, so never the sentinel) with a score among -1, 0 and +1; the
    write of the caller at that move is in range and fills an empty
    cell. *)
Theorem min_max_returns_legal_move (b : board) (depth : Z)
  (p : GameState.t) :
  is_3x3 b → p ≠ GameState.empty →
  determine_win_state b GameState.player = Returns false →
  determine_win_state b GameState.ai = Returns false →
  1 ≤ depth ≤ Z.of_nat (count_empty b) →
  ∃ x y s b',
    min_max b depth p = Returns ((Z.of_nat x, Z.of_nat y, s), b)
    ∧ empty_at b (x, y)
    ∧ unit_score s
    ∧ py_set_cell b (Z.of_nat x) (Z.of_nat y) GameState.ai = Returns b'
    ∧ count_empty b = S (count_empty b').
Proof. apply min_max_move_in_range. Qed.

Lemma min_max_returns_legal_move_witness :
  ∃ x y s b',
    min_max two_in_a_row_board 4 GameState.ai
    = Returns ((Z.of_nat x, Z.of_nat y, s), two_in_a_row_board)
    ∧ empty_at two_in_a_row_board (x, y)
    ∧ unit_score s
    ∧ py_set_cell two_in_a_row_board (Z.of_nat x) (Z.of_nat y) GameState.ai
      = Returns b'
    ∧ count_empty two_in_a_row_board = S (count_empty b').
Proof.
  apply min_max_returns_legal_move.
  - apply is_3x3_intro.
  - done.
  - reflexivity.
  - reflexivity.
  - vm_compute. split; discriminate.
Defined.

(** In [process_turn], on a board that nobody has won and that has an
    empty cell, the reply of the AI puts [GameState.ai] into an empty
    cell. *)
Lemma ai_reply_move (candidate : Z) (b : board) :
  is_3x3 b → candidate ∈ depth_candidates →
  determine_win_state b GameState.player = Returns false →
  determine_win_state b GameState.ai = Returns false →
  ¬ board_full b →
  ∃ x y b',
    ai_reply candidate b = Returns b'
    ∧ empty_at b (x, y)
    ∧ set_cell b x y GameState.ai = Returns b'.
Proof.
  intros Hb Hcand Hwp Hwa Hfull.
  pose proof (determine_possible_positions_filter b Hb) as Hcells.
  pose proof (length_positions_count_empty b Hb) as Hlen.
  assert (filter (empty_at b) row_major ≠ []) as Hne.
  { intros Hnil. apply Hfull, count_empty_zero_full.
    by rewrite <- Hlen, Hnil. }
  destruct (ai_reply_depth candidate b _ Hwp Hcells Hne Hcand)
    as [-> Hdepth].
  rewrite Hlen in Hdepth |- *.
  destruct (min_max_move_in_range b _ GameState.ai Hb ltac:(done)
              Hwp Hwa Hdepth) as (x & y & s & b' & -> & Hcell & _ & Hset & _).
  exists x, y, b'. cbn [outcome_bind result_move fst snd].
  split; [done|]. split; [done|]. by rewrite <- py_set_cell_of_nat.
Qed.

(** ** Reading a board after a write *)

Lemma set_cell_inv (b b' : board) (x y : nat) (v : GameState.t) :
  set_cell b x y v = Returns b' →
  ∃ row, b !! x = Some row ∧ (y < length row)%nat
         ∧ b' = <[x := <[y := v]> row]> b.
Proof.
  unfold set_cell. destruct (b !! x) as [row|] eqn:Hx; [|done].
  case_decide; [|done]. intros [= <-]. by exists row.
Qed.

Lemma get_cell_set_cell_eq (b b' : board) (x y : nat) (v : GameState.t) :
  set_cell b x y v = Returns b' → get_cell b' x y = Returns v.
Proof.
  intros (row & Hx & Hy & ->)%set_cell_inv. unfold get_cell.
  rewrite list_lookup_insert_eq by (by eapply lookup_lt_Some).
  by rewrite list_lookup_insert_eq.
Qed.

Lemma get_cell_set_cell_ne (b b' : board) (x y i j : nat) (v : GameState.t) :
  set_cell b x y v = Returns b' → (i, j) ≠ (x, y) →
  get_cell b' i j = get_cell b i j.
Proof.
  intros (row & Hx & Hy & ->)%set_cell_inv Hne. unfold get_cell.
  destruct (decide (i = x)) as [->|Hi].
  - rewrite list_lookup_insert_eq by (by eapply lookup_lt_Some).
    rewrite Hx. rewrite list_lookup_insert_ne; [done|]. congruence.
  - by rewrite list_lookup_insert_ne.
Qed.

(** A write of [v] completes no line of another side. *)
Lemma determine_win_state_set_cell (b b' : board) (x y : nat)
  (v s : GameState.t) :
  is_3x3 b → set_cell b x y v = Returns b' → s ≠ v →
  determine_win_state b s = Returns false →
  determine_win_state b' s = Returns false.
Proof.
  intros Hb Hset Hs Hw.
  pose proof (set_cell_3x3 _ _ _ _ _ Hb Hset) as Hb'.
  destruct (determine_win_state_lines b' s Hb') as (w' & Hw' & Hiff').
  destruct (determine_win_state_lines b s Hb) as (w & Hw0 & Hiff).
  rewrite Hw' . destruct w'; [|done]. exfalso.
  rewrite Hw in Hw0. injection Hw0 as <-.
  assert (false = true) as Habs; [|done]. apply Hiff.
  destruct Hiff' as [Hline _]. specialize (Hline eq_refl).
  apply Exists_exists in Hline as (l & Hl & Hun).
  apply Exists_exists. exists l. split; [done|].
  unfold line_uniform in *. eapply Forall_impl; [exact Hun|].
  intros [i j] Hij. cbn [fst snd] in *.
  rewrite <- Hij. symmetry. eapply get_cell_set_cell_ne; [exact Hset|].
  intros [= -> ->].
  rewrite (get_cell_set_cell_eq _ _ _ _ _ Hset) in Hij. congruence.
Qed.

(** ** The search to the end of the game *)

Lemma cutoff_won (depth : Z) (b : board) (wp wa : bool) :
  determine_win_state b GameState.player = Returns wp →
  determine_win_state b GameState.ai = Returns wa →
  wp || wa = true →
  cutoff depth b = Returns true.
Proof.
  intros Hwp Hwa Hw. unfold cutoff. case_decide; [done|].
  rewrite Hwp. cbn [outcome_bind]. destruct wp; [done|].
  rewrite Hwa. by destruct wa.
Qed.

Lemma safe_when_ai_won (b : board) (t : GameState.t) :
  is_3x3 b → determine_win_state b GameState.ai = Returns true →
  safe_for_ai b t.
Proof.
  intros Hb Hwa.
  destruct (determine_win_state_total b GameState.player Hb) as [wp Hwp].
  exists (-1, -1, Fin 1). split; [|reflexivity].
  unfold min_max. rewrite min_max_fuel_cutoff.
  - by rewrite (evaluate_wins b true wp).
  - eapply cutoff_won; [done..|]. apply orb_true_r.
Qed.

Lemma safe_when_drawn (b : board) (t : GameState.t) :
  determine_win_state b GameState.ai = Returns false →
  determine_win_state b GameState.player = Returns false →
  count_empty b = 0%nat →
  safe_for_ai b t.
Proof.
  intros Hwa Hwp Hn. exists (-1, -1, Fin 0). split; [|reflexivity].
  rewrite Hn. unfold min_max. rewrite min_max_fuel_cutoff; [|done].
  by rewrite (evaluate_wins b false false).
Qed.

Lemma candidates_children (b : board) (p : GameState.t)
  (cells : list (nat * nat)) (cands : list result) :
  p ≠ GameState.empty →
  Forall (empty_at b) cells →
  candidates b (Z.of_nat (count_empty b)) p cells = Returns cands →
  Forall2 (child_of b p) cells cands.
Proof.
  intros Hp Hempty Hpairs%candidates_Forall2.
  induction Hpairs as [|[x y] c cells cs Hcand _ IHpairs]; [constructor|].
  apply Forall_cons in Hempty as [Hcell Hempty].
  constructor; [|by apply IHpairs].
  apply candidate_inv in Hcand as (b1 & r1 & b1' & Hset & Hr1 & ->).
  cbn [fst snd] in Hset.
  pose proof (set_cell_count_empty _ _ _ _ _ Hcell Hp Hset) as Hcount.
  replace (Z.of_nat (count_empty b) - 1) with (Z.of_nat (count_empty b1))
    in Hr1 by lia.
  pose proof (min_max_fuel_frame _ _ _ _ _ _ Hr1) as ->.
  by exists b1, r1.
Qed.

(** A position that nobody has won and that has an empty cell: the search
    to the end of the game compares the candidates of the legal moves. *)
Lemma node_children (b : board) (p : GameState.t) :
  is_3x3 b → p ≠ GameState.empty →
  determine_win_state b GameState.player = Returns false →
  determine_win_state b GameState.ai = Returns false →
  count_empty b ≠ 0%nat →
  ∃ cands,
    min_max b (Z.of_nat (count_empty b)) p
    = Returns (pick p (initial_best p) cands, b)
    ∧ Forall2 (child_of b p) (filter (empty_at b) row_major) cands.
Proof.
  intros Hb Hp Hwp Hwa Hn.
  destruct (min_max_unfold b (Z.of_nat (count_empty b)) p Hb Hp)
    as (cands & Hcands & Hr); [apply cutoff_false_intro; [lia|done..]|].
  exists cands. split; [done|].
  apply candidates_children; [done| |done].
  eapply determine_possible_positions_empty.
  by apply determine_possible_positions_filter.
Qed.

Lemma holds_le (s s' : score) :
  holds s → score_ltb s' s = false → holds s'.
Proof. unfold holds. apply score_leb_trans. Qed.

(** The score of the search is not below the score of any candidate for the
    AI, and not above it for the author. *)
Lemma holds_from_child (b : board) (cell : nat * nat) (c : result)
  (cells : list (nat * nat)) (cands : list result) :
  Forall2 (child_of b GameState.ai) cells cands →
  cell ∈ cells → child_of b GameState.ai cell c →
  holds (result_score c) →
  holds (result_score (pick GameState.ai (initial_best GameState.ai) cands)).
Proof.
  intros Hpairs Hin Hchild Hc.
  apply list_elem_of_lookup_1 in Hin as [i Hi].
  destruct (Forall2_lookup_l _ _ _ _ _ Hpairs Hi) as (c' & Hc' & Hchild').
  destruct Hchild as (b1 & r1 & Hset & Hr1 & ->).
  destruct Hchild' as (b1' & r1' & Hset' & Hr1' & ->).
  rewrite Hset in Hset'. injection Hset' as <-.
  rewrite Hr1 in Hr1'. injection Hr1' as <-.
  destruct (pick_spec GameState.ai cands (initial_best GameState.ai))
    as (_ & Hall & _).
  apply list_elem_of_lookup_2 in Hc'. specialize (Hall _ Hc').
  rewrite improves_ai in Hall. eapply holds_le; [exact Hc|exact Hall].
Qed.

Lemma holds_to_child (b : board) (cell : nat * nat)
  (cells : list (nat * nat)) (cands : list result) :
  Forall2 (child_of b GameState.player) cells cands →
  cell ∈ cells →
  holds (result_score
           (pick GameState.player (initial_best GameState.player) cands)) →
  ∃ c, child_of b GameState.player cell c ∧ holds (result_score c).
Proof.
  intros Hpairs Hin Hr.
  apply list_elem_of_lookup_1 in Hin as [i Hi].
  destruct (Forall2_lookup_l _ _ _ _ _ Hpairs Hi) as (c & Hc & Hchild).
  exists c. split; [done|].
  destruct (pick_spec GameState.player cands (initial_best GameState.player))
    as (_ & Hall & _).
  apply list_elem_of_lookup_2 in Hc. specialize (Hall _ Hc).
  rewrite improves_other in Hall by done.
  eapply holds_le; [exact Hr|exact Hall].
Qed.

Lemma count_empty_positions (b : board) (cells : list (nat * nat)) :
  is_3x3 b → determine_possible_positions b = Returns cells →
  cells = filter (empty_at b) row_major ∧ length cells = count_empty b.
Proof.
  intros Hb Hcells.
  rewrite determine_possible_positions_filter in Hcells by done.
  injection Hcells as <-. split; [done|].
  by apply length_positions_count_empty.
Qed.

(** ** Certificates *)

(** Go through the tests that [can_hold] makes before it looks at moves. *)
Ltac can_hold_tests b Hb H Hwa Hwp Hcells Hfilter Hlen :=
  cbn [can_hold] in H;
  destruct (determine_win_state b GameState.ai) as [[|]| |] eqn:Hwa;
    [by apply safe_when_ai_won| |done..];
  destruct (determine_win_state b GameState.player) as [[|]| |] eqn:Hwp;
    [done| |done..];
  let cells := fresh "cells" in
  destruct (determine_possible_positions b) as [cells| |] eqn:Hcells;
    [|done..];
  destruct (count_empty_positions b cells Hb Hcells) as [Hfilter Hlen];
  destruct cells as [|? ?]; [by apply safe_when_drawn|].

Lemma can_hold_sound (n : nat) :
  ∀ (b : board) (t : GameState.t),
    is_3x3 b → can_hold n b t = true → safe_for_ai b t.
Proof.
  induction n as [|n IH]; intros b t Hb H.
  { can_hold_tests b Hb H Hwa Hwp Hcells Hfilter Hlen. done. }
  can_hold_tests b Hb H Hwa Hwp Hcells Hfilter Hlen.
  assert (count_empty b ≠ 0%nat) as Hn by (by rewrite <- Hlen).
  destruct (decide (t = GameState.ai)) as [->|Ht].
  - destruct (node_children b GameState.ai Hb ltac:(done) Hwp Hwa Hn)
      as (cands & Hr & Hpairs).
    rewrite <- Hfilter in Hpairs.
    apply existsb_exists in H as (cell & Hin & Hcell).
    apply list_elem_of_In in Hin.
    destruct (set_cell b cell.1 cell.2 GameState.ai) as [b1| |] eqn:Hset;
      [|done..].
    destruct (IH b1 GameState.player (set_cell_3x3 _ _ _ _ _ Hb Hset) Hcell)
      as (r1 & Hr1 & Hholds).
    eexists. split; [exact Hr|].
    eapply (holds_from_child b cell _ _ cands Hpairs Hin);
      [by exists b1, r1|done].
  - destruct (decide (t = GameState.player)) as [->|]; [|done].
    destruct (node_children b GameState.player Hb ltac:(done) Hwp Hwa Hn)
      as (cands & Hr & Hpairs).
    rewrite <- Hfilter in Hpairs.
    eexists. split; [exact Hr|].
    destruct (pick_spec GameState.player cands
                (initial_best GameState.player))
      as (_ & _ & [[-> _] | (i & Hi & _)]); [reflexivity|].
    destruct (Forall2_lookup_r _ _ _ _ _ Hpairs Hi)
      as (cell & Hcell & (b1 & r1 & Hset & Hr1 & ->)).
    rewrite forallb_forall in H.
    apply list_elem_of_lookup_2, list_elem_of_In in Hcell.
    specialize (H cell Hcell). rewrite Hset in H.
    destruct (IH b1 GameState.ai (set_cell_3x3 _ _ _ _ _ Hb Hset) H)
      as (r1' & Hr1' & Hholds).
    cbn [GameState.neg] in Hr1. rewrite Hr1 in Hr1'.
    by injection Hr1' as <-.
Qed.

Lemma can_hold_from_start : can_hold 9 BoardTemplate GameState.ai = true.
Proof. reflexivity. Qed.

(** ** Games against the search to the end of the game *)

Lemma determine_winner_None (b : board) :
  determine_winner b = Returns None →
  determine_win_state b GameState.player = Returns false
  ∧ determine_win_state b GameState.ai = Returns false
  ∧ ∃ cells, determine_possible_positions b = Returns cells ∧ cells ≠ [].
Proof.
  unfold determine_winner.
  destruct (determine_win_state b GameState.player) as [[|]| |]; try done.
  cbn [outcome_bind].
  destruct (determine_win_state b GameState.ai) as [[|]| |]; try done.
  cbn [outcome_bind].
  destruct (determine_possible_positions b) as [cells| |]; try done.
  cbn [outcome_bind]. case_decide; [done|]. intros _.
  split; [done|]. split; [done|]. exists cells. split; [done|].
  by intros ->.
Qed.

Lemma determine_winner_not_author (b : board) :
  is_3x3 b → determine_win_state b GameState.player = Returns false →
  ∃ w, determine_winner b = Returns w ∧ w ≠ Some Author.
Proof.
  intros Hb Hwp. unfold determine_winner. rewrite Hwp. cbn [outcome_bind].
  destruct (determine_win_state_total b GameState.ai Hb) as [[|] ->];
    cbn [outcome_bind]; [by eexists|].
  rewrite determine_possible_positions_filter by done. cbn [outcome_bind].
  case_decide; by eexists.
Qed.

(** The move of the AI: the position it leads to is the child whose score
    the search returned. *)
Lemma game_inv_ai (k : nat) (b b0 b' : board) (cells : list (nat * nat))
  (r : result) :
  game_inv k b GameState.ai →
  determine_winner b = Returns None →
  determine_possible_positions b = Returns cells →
  min_max b (Z.of_nat (length cells)) GameState.ai = Returns (r, b0) →
  py_set_cell b (result_move r).1 (result_move r).2 GameState.ai
  = Returns b' →
  game_inv (S k) b' GameState.player.
Proof.
  intros (Hb & _ & Hk & _ & (r' & Hr' & Hholds)) Hw Hcells Hr Hset.
  apply determine_winner_None in Hw as (Hwp & Hwa & cells' & Hcells' & Hne).
  rewrite Hcells in Hcells'. injection Hcells' as <-.
  destruct (count_empty_positions b cells Hb Hcells) as [Hfilter Hlen].
  assert (count_empty b ≠ 0%nat) as Hn.
  { rewrite <- Hlen. by destruct cells. }
  rewrite Hlen in Hr. rewrite Hr in Hr'. injection Hr' as <- ->.
  destruct (node_children b GameState.ai Hb ltac:(done) Hwp Hwa Hn)
    as (cands & Hpick & Hpairs).
  rewrite Hr in Hpick. injection Hpick as ->.
  destruct (min_max_within_depth _ b (Z.of_nat (count_empty b)) GameState.ai
              eq_refl Hb ltac:(done) ltac:(lia)) as (r2 & Hr2 & Hunit & _).
  rewrite Hr in Hr2. injection Hr2 as <-.
  destruct (pick_spec GameState.ai cands (initial_best GameState.ai))
    as (_ & _ & [[Hinit _] | (i & Hi & _)]).
  { rewrite Hinit in Hunit. by destruct Hunit as [? | [? | ?]]. }
  destruct (Forall2_lookup_r _ _ _ _ _ Hpairs Hi)
    as ([x y] & Hcell & (b1 & r1 & Hset1 & Hr1 & Hc)).
  assert (empty_at b (x, y)) as Hempty.
  { apply list_elem_of_lookup_2, list_elem_of_filter in Hcell. tauto. }
  rewrite Hc in Hset, Hholds. cbn [result_move result_score fst snd] in *.
  rewrite py_set_cell_of_nat, Hset1 in Hset by done. injection Hset as <-.
  pose proof (set_cell_count_empty b b1 x y GameState.ai Hempty
                ltac:(done) Hset1).
  split; [by eapply set_cell_3x3|]. split; [by right|].
  split; [lia|]. split.
  - by eapply (determine_win_state_set_cell b b1 x y GameState.ai).
  - by exists r1.
Qed.

(** A move of the author: the score of the search on the position it
    leads to is not below the score of the search before the move. *)
Lemma game_inv_player (k : nat) (b b' : board) (cells : list (nat * nat))
  (cell : nat * nat) :
  game_inv k b GameState.player →
  determine_winner b = Returns None →
  determine_possible_positions b = Returns cells →
  cell ∈ cells →
  set_cell b cell.1 cell.2 GameState.player = Returns b' →
  game_inv (S k) b' GameState.ai.
Proof.
  intros (Hb & _ & Hk & _ & (r & Hr & Hholds)) Hw Hcells Hin Hset.
  apply determine_winner_None in Hw as (Hwp & Hwa & cells' & Hcells' & Hne).
  rewrite Hcells in Hcells'. injection Hcells' as <-.
  destruct (count_empty_positions b cells Hb Hcells) as [Hfilter Hlen].
  assert (count_empty b ≠ 0%nat) as Hn.
  { rewrite <- Hlen. by destruct cells. }
  destruct (node_children b GameState.player Hb ltac:(done) Hwp Hwa Hn)
    as (cands & Hpick & Hpairs).
  rewrite Hr in Hpick. injection Hpick as ->.
  rewrite <- Hfilter in Hpairs.
  destruct (holds_to_child b cell cells cands Hpairs Hin Hholds)
    as (c & (b1 & r1 & Hset1 & Hr1 & ->) & Hc).
  rewrite Hset in Hset1. injection Hset1 as <-.
  cbn [GameState.neg result_score snd] in Hr1, Hc.
  assert (empty_at b cell) as Hempty.
  { rewrite Hfilter in Hin. apply list_elem_of_filter in Hin. tauto. }
  destruct cell as [x y]. cbn [fst snd] in Hset.
  pose proof (set_cell_count_empty b b' x y GameState.player Hempty
                ltac:(done) Hset).
  pose proof (set_cell_3x3 _ _ _ _ _ Hb Hset) as Hb'.
  pose proof (determine_win_state_set_cell b b' x y GameState.player
                GameState.ai Hb Hset ltac:(done) Hwa) as Hwa'.
  split; [done|]. split; [by left|]. split; [lia|]. split; [|by exists r1].
  destruct (determine_win_state_total b' GameState.player Hb') as [[|] Hwp'];
    [|done].
  exfalso. unfold min_max in Hr1. rewrite min_max_fuel_cutoff in Hr1.
  - rewrite (evaluate_wins b' false true) in Hr1 by done.
    cbn [outcome_bind] in Hr1. injection Hr1 as <-. done.
  - by eapply cutoff_won.
Qed.

Lemma game_inv_step (k : nat) (b b' : board) (t t' : GameState.t) :
  game_inv k b t → play_step (b, t) (b', t') → game_inv (S k) b' t'.
Proof.
  intros Hinv Hstep. inversion Hstep; subst.
  - by eapply game_inv_ai.
  - by eapply game_inv_player.
Qed.

Lemma game_inv_steps (n : nat) :
  ∀ (k : nat) (b b' : board) (t t' : GameState.t),
    game_inv k b t → nsteps play_step n (b, t) (b', t') →
    game_inv (k + n) b' t'.
Proof.
  induction n as [|n IH]; intros k b b' t t' Hinv Hsteps.
  - inversion Hsteps; subst. by rewrite Nat.add_0_r.
  - inversion Hsteps as [|? ? [b1 t1] ? Hstep Hrest]; subst.
    rewrite Nat.add_succ_r, <- Nat.add_succ_l.
    eapply IH; [|exact Hrest]. by eapply game_inv_step.
Qed.

Lemma game_inv_start : game_inv 0 BoardTemplate GameState.ai.
Proof.
  split; [apply BoardTemplate_3x3|]. split; [by left|].
  split; [reflexivity|]. split; [reflexivity|].
  apply (can_hold_sound 9); [apply BoardTemplate_3x3|].
  apply can_hold_from_start.
Qed.

(** A position that satisfies the invariant and has no winner yet has a
    next move. *)
Lemma game_inv_progress (k : nat) (b : board) (t : GameState.t) :
  game_inv k b t → determine_winner b = Returns None →
  ∃ next, play_step (b, t) next.
Proof.
  intros (Hb & Ht & _ & _ & _) Hw.
  pose proof Hw as (Hwp & Hwa & cells & Hcells & Hne)%determine_winner_None.
  destruct (count_empty_positions b cells Hb Hcells) as [Hfilter Hlen].
  destruct Ht as [-> | ->].
  - destruct (min_max_move_in_range b (Z.of_nat (length cells))
                GameState.ai Hb ltac:(done) Hwp Hwa)
      as (x & y & s & b' & Hr & _ & _ & Hset & _).
    { rewrite Hlen. destruct cells; [done|]. cbn [length] in Hlen. lia. }
    eexists. eapply play_ai; [done..|exact Hr|exact Hset].
  - destruct cells as [|[x y] cells]; [done|].
    assert (empty_at b (x, y)) as Hempty.
    { assert ((x, y) ∈ filter (empty_at b) row_major) as Hin
        by (rewrite <- Hfilter; apply list_elem_of_here).
      apply list_elem_of_filter in Hin. tauto. }
    destruct (set_cell_restore b x y GameState.player Hempty)
      as (b' & Hset & _).
    eexists. eapply (play_player b _ (x, y));
      [done..|apply list_elem_of_here|exact Hset].
Qed.

(** C6: in every game that starts on the empty board with the AI to move,
    in which the AI plays the move that [min_max] returns at a depth equal
    to the number of empty cells and the author answers with any legal
    move, no position is a win of the author: a position reached after any
    number of moves (at most nine) either has a next move or is announced
    as a win of the AI or as a draw. *)
Theorem full_depth_search_never_loses (k : nat) (b : board)
  (t : GameState.t) :
  nsteps play_step k (BoardTemplate, GameState.ai) (b, t) →
  (k ≤ 9)%nat
  ∧ ∃ w, determine_winner b = Returns w
         ∧ w ≠ Some Author
         ∧ (w = None → ∃ next, play_step (b, t) next).
Proof.
  intros Hsteps.
  pose proof (game_inv_steps k 0 _ _ _ _ game_inv_start Hsteps) as Hinv.
  cbn [Nat.add] in Hinv.
  pose proof Hinv as (Hb & _ & Hk & Hwp & _).
  split; [lia|].
  destruct (determine_winner_not_author b Hb Hwp) as (w & Hw & Hna).
  exists w. split; [done|]. split; [done|].
  intros ->. by eapply game_inv_progress.
Qed.

(** * Properties of the message and of the turn *)

(** ** Decoding *)

Lemma get_button_fmap (rows : list ActionRow) (i x : nat) :
  get_button rows i x
  = match (components <$> rows) !! i with
    | Some l =>
        match l !! x with
        | Some button => Returns button
        | None => IndexError
        end
    | None => IndexError
    end.
Proof.
  unfold get_button. rewrite list_lookup_fmap. by destruct (rows !! i).
Qed.

Lemma get_button_outcome (rows : list ActionRow) (i x : nat) :
  (∃ button, get_button rows i x = Returns button)
  ∨ get_button rows i x = IndexError.
Proof.
  unfold get_button. destruct (rows !! i) as [row|]; [|by right].
  destruct (components row !! x); [left; by eexists | by right].
Qed.

(** On a cell that is still empty, the chain of tests on the style writes
    the cell that the style stands for. *)
Lemma decode_button_spec (button : Button) (i x : nat) (b : board) :
  empty_at b (i, x) →
  decode_button button i x b
  = set_cell b i x (cell_of_style (style button)).
Proof.
  intros Hcell. unfold decode_button, cell_of_style.
  destruct (decide (style button = 2)) as [->|H2].
  { by rewrite !decide_False by lia. }
  destruct (decide (style button = 1)) as [|H1]; [done|].
  destruct (decide (style button = 4)) as [|H4]; [done|].
  destruct (set_cell_empty_at b i x GameState.empty Hcell)
    as (row & Hx & Hy & ->).
  by rewrite (list_insert_id row), (list_insert_id b).
Qed.

Lemma grid_3x3_buttons (rows : list ActionRow) :
  grid_3x3 rows →
  ∃ b00 b01 b02 b10 b11 b12 b20 b21 b22,
    get_button rows 0 0 = Returns b00 ∧ get_button rows 0 1 = Returns b01
    ∧ get_button rows 0 2 = Returns b02 ∧ get_button rows 1 0 = Returns b10
    ∧ get_button rows 1 1 = Returns b11 ∧ get_button rows 1 2 = Returns b12
    ∧ get_button rows 2 0 = Returns b20 ∧ get_button rows 2 1 = Returns b21
    ∧ get_button rows 2 2 = Returns b22.
Proof.
  unfold grid_3x3, row_major. rewrite !Forall_cons. cbn [fst snd].
  intros ([b00 ?] & [b01 ?] & [b02 ?] & [b10 ?] & [b11 ?] & [b12 ?]
          & [b20 ?] & [b21 ?] & [b22 ?] & _).
  by exists b00, b01, b02, b10, b11, b12, b20, b21, b22.
Qed.

(** Run the two loops of [determine_board_state] on buttons that are
    known. *)
Ltac decode_chain :=
  repeat
    first
      [ progress unfold range3
      | progress cbn [decode_rows decode_cells outcome_bind insert list_insert]
      | match goal with H : get_button _ _ _ = _ |- _ => rewrite H end
      | rewrite decode_button_spec by reflexivity
      | progress cbn [set_cell lookup list_lookup];
        rewrite decide_True by (cbn; lia) ].

Lemma determine_board_state_buttons (rows : list ActionRow)
  (b00 b01 b02 b10 b11 b12 b20 b21 b22 : Button) :
  get_button rows 0 0 = Returns b00 → get_button rows 0 1 = Returns b01 →
  get_button rows 0 2 = Returns b02 → get_button rows 1 0 = Returns b10 →
  get_button rows 1 1 = Returns b11 → get_button rows 1 2 = Returns b12 →
  get_button rows 2 0 = Returns b20 → get_button rows 2 1 = Returns b21 →
  get_button rows 2 2 = Returns b22 →
  determine_board_state rows
  = Returns
      [[cell_of_style (style b00); cell_of_style (style b01);
        cell_of_style (style b02)];
       [cell_of_style (style b10); cell_of_style (style b11);
        cell_of_style (style b12)];
       [cell_of_style (style b20); cell_of_style (style b21);
        cell_of_style (style b22)]].
Proof.
  intros H00 H01 H02 H10 H11 H12 H20 H21 H22.
  unfold determine_board_state, BoardTemplate.
  decode_chain. reflexivity.
Qed.

Lemma determine_board_state_grid (rows : list ActionRow) :
  grid_3x3 rows →
  ∃ b, determine_board_state rows = Returns b
       ∧ is_3x3 b
       ∧ Forall (λ p, ∃ button,
                   get_button rows p.1 p.2 = Returns button
                   ∧ get_cell b p.1 p.2
                     = Returns (cell_of_style (style button)))
           row_major.
Proof.
  intros (b00 & b01 & b02 & b10 & b11 & b12 & b20 & b21 & b22
          & H00 & H01 & H02 & H10 & H11 & H12 & H20 & H21 & H22)
    %grid_3x3_buttons.
  eexists. split; [by apply determine_board_state_buttons|].
  split; [apply is_3x3_intro|].
  unfold row_major.
  repeat (constructor; [cbn [fst snd]; eexists; split; [eassumption|done]|]).
  constructor.
Qed.

(** X3: [determine_board_state] raises [IndexError] unless the message has
    three rows of three buttons; when it has, the result is a
    three-by-three board whose cell (i, x) is the author for the style 1,
    the AI for the style 4, and empty for every other style. *)
Theorem determine_board_state_spec (rows : list ActionRow) :
  (grid_3x3 rows →
   ∃ b, determine_board_state rows = Returns b
        ∧ is_3x3 b
        ∧ Forall (λ p, ∃ button,
                    get_button rows p.1 p.2 = Returns button
                    ∧ get_cell b p.1 p.2
                      = Returns (cell_of_style (style button)))
            row_major)
  ∧ (¬ grid_3x3 rows → determine_board_state rows = IndexError).
Proof.
  split; [apply determine_board_state_grid|].
  intros Hno. unfold determine_board_state, BoardTemplate.
  destruct (get_button_outcome rows 0 0) as [[b00 H00]|H00];
    [|by decode_chain].
  destruct (get_button_outcome rows 0 1) as [[b01 H01]|H01];
    [|by decode_chain].
  destruct (get_button_outcome rows 0 2) as [[b02 H02]|H02];
    [|by decode_chain].
  destruct (get_button_outcome rows 1 0) as [[b10 H10]|H10];
    [|by decode_chain].
  destruct (get_button_outcome rows 1 1) as [[b11 H11]|H11];
    [|by decode_chain].
  destruct (get_button_outcome rows 1 2) as [[b12 H12]|H12];
    [|by decode_chain].
  destruct (get_button_outcome rows 2 0) as [[b20 H20]|H20];
    [|by decode_chain].
  destruct (get_button_outcome rows 2 1) as [[b21 H21]|H21];
    [|by decode_chain].
  destruct (get_button_outcome rows 2 2) as [[b22 H22]|H22];
    [|by decode_chain].
  exfalso. apply Hno. unfold grid_3x3, row_major.
  repeat (constructor; [cbn [fst snd]; by eexists|]). constructor.
Qed.

Lemma determine_board_state_spec_witness :
  ∃ b, determine_board_state odd_rows = Returns b
       ∧ is_3x3 b
       ∧ Forall (λ p, ∃ button,
                   get_button odd_rows p.1 p.2 = Returns button
                   ∧ get_cell b p.1 p.2
                     = Returns (cell_of_style (style button)))
           row_major.
Proof.
  apply (proj1 (determine_board_state_spec odd_rows)).
  unfold grid_3x3, row_major.
  repeat (constructor; [by eexists|]). constructor.
Defined.

(** ** Rendering *)

Section rendering.
Context `{ImportsSpec}.

Lemma cell_of_style_button_style (c : GameState.t) :
  cell_of_style (button_style c) = c.
Proof.
  unfold button_style, cell_of_style.
  rewrite GREY_value, BLURPLE_value, RED_value. by destruct c.
Qed.

Lemma render_rows_cells (disable : bool)
  (a0 a1 a2 b0 b1 b2 c0 c1 c2 : GameState.t) :
  render_rows [[a0; a1; a2]; [b0; b1; b2]; [c0; c1; c2]] disable range3 []
  = Returns
      [ cell_button disable 0 0 a0; cell_button disable 0 1 a1;
        cell_button disable 0 2 a2; cell_button disable 1 0 b0;
        cell_button disable 1 1 b1; cell_button disable 1 2 b2;
        cell_button disable 2 0 c0; cell_button disable 2 1 c1;
        cell_button disable 2 2 c2 ].
Proof. reflexivity. Qed.

(** The rows that [render_board] returns for a three-by-three board. *)
Lemma render_board_rows (disable : bool)
  (a0 a1 a2 b0 b1 b2 c0 c1 c2 : GameState.t) :
  ∃ rows,
    render_board [[a0; a1; a2]; [b0; b1; b2]; [c0; c1; c2]] disable
    = Returns rows
    ∧ components <$> rows
      = [ [ cell_button disable 0 0 a0; cell_button disable 0 1 a1;
            cell_button disable 0 2 a2 ];
          [ cell_button disable 1 0 b0; cell_button disable 1 1 b1;
            cell_button disable 1 2 b2 ];
          [ cell_button disable 2 0 c0; cell_button disable 2 1 c1;
            cell_button disable 2 2 c2 ] ].
Proof.
  unfold render_board. rewrite render_rows_cells. cbn [outcome_bind].
  eexists. split; [reflexivity|].
  by rewrite spread_to_rows_chunk by (cbn [length]; lia).
Qed.

Lemma render_board_grid (b : board) (disable : bool) :
  is_3x3 b →
  ∃ rows,
    render_board b disable = Returns rows
    ∧ length rows = 3%nat
    ∧ Forall (λ row, length (components row) = 3%nat) rows
    ∧ Forall (λ p, ∃ c,
                get_cell b p.1 p.2 = Returns c
                ∧ get_button rows p.1 p.2
                  = Returns (cell_button disable p.1 p.2 c))
        row_major.
Proof.
  intros Hb. name_cells Hb.
  destruct (render_board_rows disable a0 a1 a2 b0 b1 b2 c0 c1 c2)
    as (rows & Hrows & Hgrid).
  exists rows. split; [done|]. split; [|split].
  - apply (f_equal length) in Hgrid. by rewrite length_fmap in Hgrid.
  - apply (Forall_fmap components (λ l, length l = 3%nat)).
    rewrite Hgrid. by repeat constructor.
  - unfold row_major.
    repeat (constructor;
            [cbn [fst snd]; eexists; split; [reflexivity|];
             by rewrite get_button_fmap, Hgrid|]).
    constructor.
Qed.

Lemma round_trip (b : board) (disable : bool) :
  is_3x3 b →
  ∃ rows, render_board b disable = Returns rows
          ∧ determine_board_state rows = Returns b.
Proof.
  intros Hb. name_cells Hb.
  destruct (render_board_rows disable a0 a1 a2 b0 b1 b2 c0 c1 c2)
    as (rows & Hrows & Hgrid).
  exists rows. split; [done|].
  rewrite (determine_board_state_buttons rows
             (cell_button disable 0 0 a0) (cell_button disable 0 1 a1)
             (cell_button disable 0 2 a2) (cell_button disable 1 0 b0)
             (cell_button disable 1 1 b1) (cell_button disable 1 2 b2)
             (cell_button disable 2 0 c0) (cell_button disable 2 1 c1)
             (cell_button disable 2 2 c2));
    try (by rewrite get_button_fmap, Hgrid).
  cbn [style cell_button]. by rewrite !cell_of_style_button_style.
Qed.

End rendering.

Lemma discord_spec : @ImportsSpec discord.
Proof.
  split; try reflexivity.
  - intros buttons _. cbn [spread_to_rows discord].
    rewrite <- list_fmap_compose. apply list_fmap_id.
  - intros n Hn. cbn [int discord].
    do 10 (destruct n as [|n]; [reflexivity|]). lia.
Qed.

(** X1: decoding what [render_board] made of a three-by-three board gives
    the board back, with the buttons enabled or disabled, provided the
    styles [GREY], [BLURPLE] and [RED] are the integers 2, 1 and 4 and
    [spread_to_rows] makes rows of three. *)
Theorem determine_board_state_render_board `{ImportsSpec} (b : board)
  (disable : bool) :
  is_3x3 b →
  ∃ rows, render_board b disable = Returns rows
          ∧ determine_board_state rows = Returns b.
Proof. apply round_trip. Qed.

Lemma determine_board_state_render_board_witness :
  ∃ rows, @render_board discord two_in_a_row_board true = Returns rows
          ∧ determine_board_state rows = Returns two_in_a_row_board.
Proof.
  apply (@determine_board_state_render_board discord discord_spec).
  apply is_3x3_intro.
Defined.

(** X2: for a three-by-three board, [render_board] returns three rows of
    three buttons; the button at (i, x) has the style of the cell (i, x),
    the identifier that names (i, x), and is disabled exactly when
    [disable] is set. *)
Theorem render_board_spec `{ImportsSpec} (b : board) (disable : bool) :
  is_3x3 b →
  ∃ rows,
    render_board b disable = Returns rows
    ∧ length rows = 3%nat
    ∧ Forall (λ row, length (components row) = 3%nat) rows
    ∧ Forall (λ p, ∃ c,
                get_cell b p.1 p.2 = Returns c
                ∧ get_button rows p.1 p.2
                  = Returns (cell_button disable p.1 p.2 c))
        row_major.
Proof. apply render_board_grid. Qed.

Lemma render_board_spec_witness :
  ∃ rows,
    @render_board discord two_in_a_row_board false = Returns rows
    ∧ length rows = 3%nat
    ∧ Forall (λ row, length (components row) = 3%nat) rows
    ∧ Forall (λ p, ∃ c,
                get_cell two_in_a_row_board p.1 p.2 = Returns c
                ∧ get_button rows p.1 p.2
                  = Returns (@cell_button discord false p.1 p.2 c))
        row_major.
Proof.
  apply (@render_board_spec discord discord_spec).
  apply is_3x3_intro.
Defined.

(** ** The identifier of a button *)

Section identifiers.
Context `{ImportsSpec}.

Lemma int_digit_0 : int "0" = Parsed 0.
Proof. exact (int_decimal 0 ltac:(lia)). Qed.

Lemma int_digit_1 : int "1" = Parsed 1.
Proof. exact (int_decimal 1 ltac:(lia)). Qed.

Lemma int_digit_2 : int "2" = Parsed 2.
Proof. exact (int_decimal 2 ltac:(lia)). Qed.

Lemma button_pos_id (i x : nat) :
  (i < 3)%nat → (x < 3)%nat →
  button_pos (button_id i x) = Parsed (Z.of_nat i, Z.of_nat x).
Proof.
  intros Hi Hx.
  destruct i as [|[|[|i]]]; [| | |lia];
    (destruct x as [|[|[|x]]]; [| | |lia]);
    unfold button_pos;
    match goal with
    | |- context [last ?l] =>
        let v := eval vm_compute in (last l) in change (last l) with v
    end;
    cbv beta iota;
    match goal with
    | |- context [split "," ?s] =>
        let v := eval vm_compute in (split "," s) in
        change (split "," s) with v
    end;
    cbn [lookup list_lookup];
    rewrite ?int_digit_0, ?int_digit_1, ?int_digit_2; reflexivity.
Qed.

End identifiers.

(** X4: the position that [process_turn] reads from the identifier of the
    button that [render_board] makes for the cell (i, x) is (i, x). *)
Theorem button_pos_button_id `{ImportsSpec} :
  Forall (λ p, button_pos (button_id p.1 p.2)
               = Parsed (Z.of_nat p.1, Z.of_nat p.2)) row_major.
Proof.
  unfold row_major.
  repeat (constructor; [apply button_pos_id; cbn; lia|]). constructor.
Qed.

Lemma button_pos_button_id_witness :
  Forall (λ p, @button_pos discord (button_id p.1 p.2)
               = Parsed (Z.of_nat p.1, Z.of_nat p.2)) row_major.
Proof. apply (@button_pos_button_id discord discord_spec). Defined.

(** ** The turn *)

Lemma get_cell_range (b : board) (i x : nat) (c : GameState.t) :
  is_3x3 b → get_cell b i x = Returns c → (i < 3)%nat ∧ (x < 3)%nat.
Proof.
  intros [Hlen Hrows]. unfold get_cell.
  destruct (b !! i) as [row|] eqn:Hi; [|done].
  destruct (row !! x) as [c'|] eqn:Hx; [|done]. intros _.
  pose proof (Forall_lookup_1 _ _ _ _ Hrows Hi) as Hrow. cbn beta in Hrow.
  apply lookup_lt_Some in Hi, Hx. lia.
Qed.

Lemma py_get_cell_of_nat (b : board) (i x : nat) (c : GameState.t) :
  get_cell b i x = Returns c →
  py_get_cell b (Z.of_nat i) (Z.of_nat x) = Returns c.
Proof.
  unfold get_cell, py_get_cell.
  destruct (b !! i) as [row|] eqn:Hi; [|done].
  destruct (row !! x) as [c'|] eqn:Hx; [|done]. intros [= ->].
  rewrite py_index_of_nat by (by eapply lookup_lt_Some). rewrite Hi.
  rewrite py_index_of_nat by (by eapply lookup_lt_Some). by rewrite Hx.
Qed.

(** What the reply of the AI and the choice of the winner make of a board
    on which the AI has no line yet. *)
Lemma ai_reply_cases (candidate : Z) (b1 : board) :
  is_3x3 b1 → candidate ∈ depth_candidates →
  determine_win_state b1 GameState.ai = Returns false →
  ∃ b' w,
    ai_reply candidate b1 = Returns b'
    ∧ is_3x3 b'
    ∧ determine_winner b' = Returns w
    ∧ ((determine_win_state b1 GameState.player = Returns true
        ∧ b' = b1 ∧ w = Some Author)
       ∨ (determine_win_state b1 GameState.player = Returns false
          ∧ board_full b1 ∧ b' = b1 ∧ w = Some Nobody)
       ∨ (determine_win_state b1 GameState.player = Returns false
          ∧ ¬ board_full b1 ∧ w ≠ Some Author
          ∧ ∃ cell, empty_at b1 cell
                    ∧ set_cell b1 cell.1 cell.2 GameState.ai = Returns b')).
Proof.
  intros Hb Hcand Hwa.
  destruct (determine_win_state_total b1 GameState.player Hb) as [[|] Hwp].
  { exists b1, (Some Author). split; [|split; [done|split]].
    - unfold ai_reply. by rewrite Hwp.
    - unfold determine_winner. by rewrite Hwp.
    - by left. }
  destruct (decide (count_empty b1 = 0%nat)) as [Hzero|Hsome].
  { pose proof (proj1 (count_empty_zero_full b1) Hzero) as Hfull.
    exists b1, (Some Nobody). split; [|split; [done|split]].
    - unfold ai_reply. rewrite Hwp. cbn [outcome_bind].
      by rewrite positions_full.
    - unfold determine_winner. rewrite Hwp. cbn [outcome_bind].
      rewrite Hwa. cbn [outcome_bind]. by rewrite positions_full.
    - right. by left. }
  assert (¬ board_full b1) as Hfull.
  { by intros ?%count_empty_zero_full. }
  destruct (ai_reply_move candidate b1 Hb Hcand Hwp Hwa Hfull)
    as (x & y & b' & Hreply & Hcell & Hset).
  pose proof (set_cell_3x3 _ _ _ _ _ Hb Hset) as Hb'.
  pose proof (determine_win_state_set_cell b1 b' x y GameState.ai
                GameState.player Hb Hset ltac:(done) Hwp) as Hwp'.
  destruct (determine_winner_not_author b' Hb' Hwp') as (w & Hw & Hna).
  exists b', w. split; [done|]. split; [done|]. split; [done|].
  right. right. split; [done|]. split; [done|]. split; [done|].
  by exists (x, y).
Qed.


Lemma play_turn_empty (candidate : Z) (rows : list ActionRow) (b : board)
  (i x : nat) :
  determine_board_state rows = Returns b →
  is_3x3 b → candidate ∈ depth_candidates →
  determine_win_state b GameState.ai = Returns false →
  empty_at b (i, x) →
  ∃ b1 b' w,
    set_cell b i x GameState.player = Returns b1
    ∧ play_turn candidate rows (Z.of_nat i, Z.of_nat x)
      = Returns (Some (b', w))
    ∧ is_3x3 b'
    ∧ determine_winner b' = Returns w
    ∧ ((determine_win_state b1 GameState.player = Returns true
        ∧ b' = b1 ∧ w = Some Author)
       ∨ (determine_win_state b1 GameState.player = Returns false
          ∧ board_full b1 ∧ b' = b1 ∧ w = Some Nobody)
       ∨ (determine_win_state b1 GameState.player = Returns false
          ∧ ¬ board_full b1 ∧ w ≠ Some Author
          ∧ ∃ cell, empty_at b1 cell
                    ∧ set_cell b1 cell.1 cell.2 GameState.ai = Returns b')).
Proof.
  intros Hrows Hb Hcand Hwa Hcell.
  destruct (set_cell_restore b i x GameState.player Hcell)
    as (b1 & Hset & _).
  pose proof (set_cell_3x3 _ _ _ _ _ Hb Hset) as Hb1.
  pose proof (determine_win_state_set_cell b b1 i x GameState.player
                GameState.ai Hb Hset ltac:(done) Hwa) as Hwa1.
  destruct (ai_reply_cases candidate b1 Hb1 Hcand Hwa1)
    as (b' & w & Hreply & Hb' & Hw & Hcases).
  exists b1, b', w. split; [done|]. split; [|done].
  unfold play_turn. rewrite Hrows. cbn [outcome_bind fst snd].
  rewrite (py_get_cell_of_nat b i x GameState.empty Hcell).
  cbn [outcome_bind]. rewrite decide_False by (by intros []).
  rewrite py_set_cell_of_nat, Hset by done. cbn [outcome_bind].
  rewrite Hreply. cbn [outcome_bind]. by rewrite Hw.
Qed.

Section turn.
Context `{ImportsSpec}.

Lemma rendered_decodes (b : board) (disable : bool)
  (rows : list ActionRow) :
  is_3x3 b → render_board b disable = Returns rows →
  determine_board_state rows = Returns b.
Proof.
  intros Hb Hrows. destruct (round_trip b disable Hb) as (rows' & Hr & Hd).
  rewrite Hrows in Hr. by injection Hr as <-.
Qed.

Lemma rendered_length (b : board) (disable : bool)
  (rows : list ActionRow) :
  is_3x3 b → render_board b disable = Returns rows →
  (0 < length rows ≤ 5)%nat.
Proof.
  intros Hb Hrows.
  destruct (render_board_grid b disable Hb) as (rows' & Hr & Hlen & _).
  rewrite Hrows in Hr. injection Hr as <-. lia.
Qed.


Lemma process_turn_empty (candidate author : Z) (mention_users : list Z)
  (b : board) (disable : bool) (rows : list ActionRow) (i x : nat) :
  is_3x3 b → render_board b disable = Returns rows →
  candidate ∈ depth_candidates →
  authorised author mention_users = true →
  determine_win_state b GameState.ai = Returns false →
  empty_at b (i, x) →
  ∃ b1 b' w rows',
    set_cell b i x GameState.player = Returns b1
    ∧ process_turn candidate author mention_users (button_id i x) rows
      = Edited w rows'
    ∧ render_board b' (bool_decide (w ≠ None)) = Returns rows'
    ∧ determine_board_state rows' = Returns b'
    ∧ determine_winner b' = Returns w
    ∧ ((determine_win_state b1 GameState.player = Returns true
        ∧ b' = b1 ∧ w = Some Author)
       ∨ (determine_win_state b1 GameState.player = Returns false
          ∧ board_full b1 ∧ b' = b1 ∧ w = Some Nobody)
       ∨ (determine_win_state b1 GameState.player = Returns false
          ∧ ¬ board_full b1 ∧ w ≠ Some Author
          ∧ ∃ cell, empty_at b1 cell
                    ∧ set_cell b1 cell.1 cell.2 GameState.ai
                      = Returns b')).
Proof.
  intros Hb Hrows Hcand Hauth Hwa Hcell.
  pose proof (rendered_decodes b disable rows Hb Hrows) as Hdecode.
  destruct (play_turn_empty candidate rows b i x Hdecode Hb Hcand Hwa
              Hcell) as (b1 & b' & w & Hset & Hplay & Hb' & Hw & Hcases).
  destruct (round_trip b' (bool_decide (w ≠ None)) Hb')
    as (rows' & Hrows' & Hdecode').
  exists b1, b', w, rows'.
  split; [done|]. split; [|done].
  destruct (get_cell_range b i x _ Hb Hcell) as [Hi Hx].
  unfold process_turn. rewrite Hauth, button_pos_id by done.
  rewrite Hplay, Hrows'.
  by rewrite spread_rows_id by (by eapply rendered_length).
Qed.

End turn.



(** X6: on the message rendered from a three-by-three board on which the
    AI has no line, a click by the mentioned user on the button of an
    empty cell edits the message.  The author is put into that cell; if
    that completes a line of the author, or fills the board, nothing else
    changes and the winner is the author, or nobody; otherwise the AI is
    put into one cell that was empty and the winner is not the author.
    The new message is the rendering of the new board, its buttons
    disabled exactly when a winner is announced, and decodes to that
    board. *)
Theorem process_turn_plays `{ImportsSpec} (candidate author : Z)
  (mention_users : list Z) (b : board) (disable : bool)
  (rows : list ActionRow) (i x : nat) :
  is_3x3 b → render_board b disable = Returns rows →
  candidate ∈ depth_candidates →
  authorised author mention_users = true →
  determine_win_state b GameState.ai = Returns false →
  empty_at b (i, x) →
  ∃ b1 b' w rows',
    set_cell b i x GameState.player = Returns b1
    ∧ process_turn candidate author mention_users (button_id i x) rows
      = Edited w rows'
    ∧ render_board b' (bool_decide (w ≠ None)) = Returns rows'
    ∧ determine_board_state rows' = Returns b'
    ∧ determine_winner b' = Returns w
    ∧ ((determine_win_state b1 GameState.player = Returns true
        ∧ b' = b1 ∧ w = Some Author)
       ∨ (determine_win_state b1 GameState.player = Returns false
          ∧ board_full b1 ∧ b' = b1 ∧ w = Some Nobody)
       ∨ (determine_win_state b1 GameState.player = Returns false
          ∧ ¬ board_full b1 ∧ w ≠ Some Author
          ∧ ∃ cell, empty_at b1 cell
                    ∧ set_cell b1 cell.1 cell.2 GameState.ai = Returns b')).
Proof. apply process_turn_empty. Qed.

Lemma process_turn_plays_witness :
  ∃ b1 b' w rows',
    set_cell two_in_a_row_board 1 0 GameState.player = Returns b1
    ∧ @process_turn discord 6 7 [7] (button_id 1 0) two_in_a_row_rows
      = Edited w rows'
    ∧ @render_board discord b' (bool_decide (w ≠ None)) = Returns rows'
    ∧ determine_board_state rows' = Returns b'
    ∧ determine_winner b' = Returns w
    ∧ ((determine_win_state b1 GameState.player = Returns true
        ∧ b' = b1 ∧ w = Some Author)
       ∨ (determine_win_state b1 GameState.player = Returns false
          ∧ board_full b1 ∧ b' = b1 ∧ w = Some Nobody)
       ∨ (determine_win_state b1 GameState.player = Returns false
          ∧ ¬ board_full b1 ∧ w ≠ Some Author
          ∧ ∃ cell, empty_at b1 cell
                    ∧ set_cell b1 cell.1 cell.2 GameState.ai = Returns b')).
Proof.
  apply (@process_turn_plays discord discord_spec 6 7 [7]
           two_in_a_row_board false two_in_a_row_rows 1 0).
  - apply is_3x3_intro.
  - reflexivity.
  - unfold depth_candidates. apply list_elem_of_further, list_elem_of_here.
  - reflexivity.
  - reflexivity.
  - reflexivity.
Defined.

(** ** The reply of the AI *)

(** X13: on a three-by-three board that nobody has won and that has an
    empty cell, for either depth that [random.choice] can draw, the reply
    of the AI in [process_turn] changes one cell, which was empty, to
    [GameState.ai]. *)
Theorem ai_reply_fills_empty_cell (candidate : Z) (b : board) :
  is_3x3 b → candidate ∈ depth_candidates →
  determine_win_state b GameState.player = Returns false →
  determine_win_state b GameState.ai = Returns false →
  ¬ board_full b →
  ∃ x y b',
    ai_reply candidate b = Returns b'
    ∧ empty_at b (x, y)
    ∧ set_cell b x y GameState.ai = Returns b'.
Proof. apply ai_reply_move. Qed.

Lemma ai_reply_fills_empty_cell_witness :
  ∃ x y b',
    ai_reply 4 two_in_a_row_board = Returns b'
    ∧ empty_at two_in_a_row_board (x, y)
    ∧ set_cell two_in_a_row_board x y GameState.ai = Returns b'.
Proof.
  apply ai_reply_fills_empty_cell.
  - apply is_3x3_intro.
  - unfold depth_candidates. apply list_elem_of_here.
  - reflexivity.
  - reflexivity.
  - intros Hfull. unfold board_full, two_in_a_row_board in Hfull.
    cbn [concat app] in Hfull.
    apply Forall_cons in Hfull as [_ Hfull].
    apply Forall_cons in Hfull as [_ Hfull].
    by apply Forall_cons in Hfull as [Hfull _].
Defined.

(** X7: on a three-by-three board on which the AI has a line already,
    the author has none and a cell is empty, the search stops at once
    with the sentinel move (-1, -1), and the reply of the AI writes
    [GameState.ai] at that index: into the cell (2, 2), whatever it
    holds. *)
Theorem ai_reply_after_ai_line (candidate : Z) (b : board) :
  is_3x3 b →
  determine_win_state b GameState.player = Returns false →
  determine_win_state b GameState.ai = Returns true →
  ¬ board_full b →
  min_max b
    (selected_depth candidate (length (filter (empty_at b) row_major)))
    GameState.ai
  = Returns ((-1, -1, Fin 1), b)
  ∧ ai_reply candidate b = set_cell b 2 2 GameState.ai
  ∧ ∃ b', set_cell b 2 2 GameState.ai = Returns b'.
Proof.
  intros Hb Hwp Hwa Hfull.
  assert (∀ depth, min_max b depth GameState.ai
                   = Returns ((-1, -1, Fin 1), b)) as Hsearch.
  { intros depth. unfold min_max. rewrite min_max_fuel_cutoff.
    - by rewrite (evaluate_wins b true false).
    - by eapply cutoff_won. }
  split; [apply Hsearch|].
  assert (py_set_cell b (-1) (-1) GameState.ai
          = set_cell b 2 2 GameState.ai) as Hwrite.
  { clear -Hb. by name_cells Hb. }
  split.
  - unfold ai_reply. rewrite Hwp. cbn [outcome_bind].
    rewrite determine_possible_positions_filter by done.
    cbn [outcome_bind]. rewrite decide_True.
    + rewrite Hsearch. cbn [outcome_bind result_move fst snd]. done.
    + rewrite length_positions_count_empty by done.
      by intros ?%count_empty_zero_full.
  - clear -Hb. name_cells Hb. by eexists.
Qed.

Lemma ai_reply_after_ai_line_witness :
  min_max ai_line_board
    (selected_depth 6
       (length (filter (empty_at ai_line_board) row_major)))
    GameState.ai
  = Returns ((-1, -1, Fin 1), ai_line_board)
  ∧ ai_reply 6 ai_line_board = set_cell ai_line_board 2 2 GameState.ai
  ∧ ∃ b', set_cell ai_line_board 2 2 GameState.ai = Returns b'.
Proof.
  apply ai_reply_after_ai_line.
  - apply is_3x3_intro.
  - reflexivity.
  - reflexivity.
  - intros Hfull. unfold board_full, ai_line_board in Hfull.
    cbn [concat app] in Hfull.
    do 5 apply Forall_cons in Hfull as [_ Hfull].
    by apply Forall_cons in Hfull as [Hfull _].
Defined.

(** ** Evaluation and the winner *)

Lemma has_line_wins (b : board) (s : GameState.t) :
  is_3x3 b →
  (determine_win_state b s = Returns true ∧ has_line b s)
  ∨ (determine_win_state b s = Returns false ∧ ¬ has_line b s).
Proof.
  intros Hb.
  destruct (determine_win_state_lines b s Hb) as ([|] & Hw & Hiff).
  - left. split; [done|]. by apply Hiff.
  - right. split; [done|]. intros Hline. by apply Hiff in Hline.
Qed.

(** X8: on a three-by-three board, [evaluate] returns +1 exactly when
    the AI has a line, -1 exactly when the author has one and the AI has
    none, and 0 exactly when neither has one. *)
Theorem evaluate_lines (b : board) :
  is_3x3 b →
  ∃ v, evaluate b = Returns v
       ∧ (v = 1 ↔ has_line b GameState.ai)
       ∧ (v = -1 ↔ has_line b GameState.player ∧ ¬ has_line b GameState.ai)
       ∧ (v = 0 ↔ ¬ has_line b GameState.player
                  ∧ ¬ has_line b GameState.ai).
Proof.
  intros Hb.
  destruct (has_line_wins b GameState.ai Hb) as [[Hwa Ha] | [Hwa Ha]];
    destruct (has_line_wins b GameState.player Hb) as [[Hwp Hp] | [Hwp Hp]];
    eexists; (split; [by apply evaluate_wins|]); cbn match;
    repeat split; intros; try done; try tauto; try lia.
Qed.

Lemma evaluate_lines_witness :
  ∃ v, evaluate ai_line_board = Returns v
       ∧ (v = 1 ↔ has_line ai_line_board GameState.ai)
       ∧ (v = -1 ↔ has_line ai_line_board GameState.player
                   ∧ ¬ has_line ai_line_board GameState.ai)
       ∧ (v = 0 ↔ ¬ has_line ai_line_board GameState.player
                  ∧ ¬ has_line ai_line_board GameState.ai).
Proof. apply evaluate_lines. apply is_3x3_intro. Defined.

(** X9: on a three-by-three board, the winner that [process_turn]
    announces is the author exactly when the author has a line, the AI
    exactly when the AI has one and the author has none, nobody exactly
    when neither has one and the board is full, and there is none exactly
    when neither has one and a cell is empty. *)
Theorem determine_winner_lines (b : board) :
  is_3x3 b →
  ∃ w, determine_winner b = Returns w
       ∧ (w = Some Author ↔ has_line b GameState.player)
       ∧ (w = Some Bot ↔ has_line b GameState.ai
                         ∧ ¬ has_line b GameState.player)
       ∧ (w = Some Nobody ↔ ¬ has_line b GameState.player
                            ∧ ¬ has_line b GameState.ai ∧ board_full b)
       ∧ (w = None ↔ ¬ has_line b GameState.player
                      ∧ ¬ has_line b GameState.ai ∧ ¬ board_full b).
Proof.
  intros Hb. unfold determine_winner.
  destruct (has_line_wins b GameState.player Hb) as [[-> Hp] | [-> Hp]];
    cbn [outcome_bind].
  { eexists. split; [reflexivity|]. repeat split; intros; try done; tauto. }
  destruct (has_line_wins b GameState.ai Hb) as [[-> Ha] | [-> Ha]];
    cbn [outcome_bind].
  { eexists. split; [reflexivity|]. repeat split; intros; try done; tauto. }
  rewrite determine_possible_positions_filter by done. cbn [outcome_bind].
  rewrite length_positions_count_empty by done.
  pose proof (count_empty_zero_full b) as Hfull.
  case_decide; (eexists; split; [reflexivity|]);
    repeat split; intros; try done; tauto.
Qed.

Lemma determine_winner_lines_witness :
  ∃ w, determine_winner drawn_board = Returns w
       ∧ (w = Some Author ↔ has_line drawn_board GameState.player)
       ∧ (w = Some Bot ↔ has_line drawn_board GameState.ai
                         ∧ ¬ has_line drawn_board GameState.player)
       ∧ (w = Some Nobody ↔ ¬ has_line drawn_board GameState.player
                            ∧ ¬ has_line drawn_board GameState.ai
                            ∧ board_full drawn_board)
       ∧ (w = None ↔ ¬ has_line drawn_board GameState.player
                      ∧ ¬ has_line drawn_board GameState.ai
                      ∧ ¬ board_full drawn_board).
Proof. apply determine_winner_lines. apply is_3x3_intro. Defined.

(** ** Frames of the search *)

Lemma count_empty_le_9 (b : board) : is_3x3 b → (count_empty b ≤ 9)%nat.
Proof. intros Hb. pose proof (count_empty_occupied b Hb). lia. Qed.

(** X10: on a three-by-three board and for either side, [min_max] returns
    at every depth, negative depths included: it never has more frames
    open than there are empty cells, plus one, so never more than ten,
    and with that many allowed the result is always the same. *)
Theorem min_max_terminates (b : board) (depth : Z) (p : GameState.t) :
  is_3x3 b → p ≠ GameState.empty →
  ∃ r, min_max b depth p = Returns (r, b)
       ∧ (∀ fuel, (count_empty b < fuel)%nat →
                  min_max_fuel fuel depth p b = Returns (r, b))
       ∧ (∀ fuel, (10 ≤ fuel)%nat →
                  min_max_fuel fuel depth p b = Returns (r, b)).
Proof.
  intros Hb Hp.
  destruct (min_max_fuel_total _ b depth p eq_refl Hb Hp) as [r Hr].
  exists r. split; [apply Hr; lia|]. split; [done|].
  intros fuel Hfuel. apply Hr. pose proof (count_empty_le_9 b Hb). lia.
Qed.

Lemma min_max_terminates_witness :
  ∃ r, min_max two_in_a_row_board (-3) GameState.player
       = Returns (r, two_in_a_row_board)
       ∧ (∀ fuel, (count_empty two_in_a_row_board < fuel)%nat →
                  min_max_fuel fuel (-3) GameState.player two_in_a_row_board
                  = Returns (r, two_in_a_row_board))
       ∧ (∀ fuel, (10 ≤ fuel)%nat →
                  min_max_fuel fuel (-3) GameState.player two_in_a_row_board
                  = Returns (r, two_in_a_row_board)).
Proof.
  apply min_max_terminates.
  - apply is_3x3_intro.
  - done.
Defined.

Lemma set_cell_empty_same (b : board) (x y : nat) :
  empty_at b (x, y) → set_cell b x y GameState.empty = Returns b.
Proof.
  intros (row & Hx & Hy & ->)%(set_cell_empty_at _ _ _ GameState.empty).
  by rewrite (list_insert_id row), (list_insert_id b).
Qed.

(** X11: called for the side [GameState.empty] with a negative depth, on a
    three-by-three board that nobody has won and that has an empty cell,
    [min_max] never returns: the move it tries leaves the board as it is
    and the depth never comes to 0, so however many frames are allowed,
    one more is needed. *)
Theorem min_max_empty_side_never_returns (b : board) (depth : Z) :
  is_3x3 b →
  determine_win_state b GameState.player = Returns false →
  determine_win_state b GameState.ai = Returns false →
  ¬ board_full b → depth < 0 →
  ∀ fuel, min_max_fuel fuel depth GameState.empty b = OutOfFuel.
Proof.
  intros Hb Hwp Hwa Hfull Hd fuel. revert depth Hd.
  induction fuel as [|fuel IH]; intros depth Hd; [done|].
  rewrite min_max_fuel_S.
  rewrite cutoff_false_intro by (done || lia). cbn [outcome_bind].
  pose proof (determine_possible_positions_filter b Hb) as Hcells.
  pose proof (determine_possible_positions_empty b _ Hcells) as Hempty.
  rewrite Hcells. cbn [outcome_bind].
  destruct (filter (empty_at b) row_major) as [|[x y] cells] eqn:Hshape.
  { exfalso. apply Hfull, count_empty_zero_full.
    by rewrite <- length_positions_count_empty, Hshape. }
  apply Forall_cons in Hempty as [Hcell _].
  cbn [for_each]. unfold bind at 1, try_cell, bind, store.
  cbn [fst snd]. rewrite set_cell_empty_same by done. cbn [outcome_bind].
  cbn [GameState.neg]. by rewrite IH by lia.
Qed.

Lemma min_max_empty_side_never_returns_witness :
  min_max_fuel 50 (-1) GameState.empty two_in_a_row_board = OutOfFuel.
Proof.
  apply (min_max_empty_side_never_returns two_in_a_row_board (-1)).
  - apply is_3x3_intro.
  - reflexivity.
  - reflexivity.
  - intros Hfull. unfold board_full, two_in_a_row_board in Hfull.
    cbn [concat app] in Hfull.
    do 2 apply Forall_cons in Hfull as [_ Hfull].
    by apply Forall_cons in Hfull as [Hfull _].
  - lia.
Defined.

(** ** A win within reach *)

(** X12: on a three-by-three board that nobody has won, if the AI can
    complete a line with one move, then at every depth between 1 and the
    number of empty cells the search of the AI returns the score +1, with a
    move into an empty cell after which the search of the author, one
    level less deep, has the score +1 too. *)
Theorem min_max_sees_win (b b1 : board) (depth : Z) (cell : nat * nat) :
  is_3x3 b →
  determine_win_state b GameState.player = Returns false →
  determine_win_state b GameState.ai = Returns false →
  1 ≤ depth ≤ Z.of_nat (count_empty b) →
  empty_at b cell →
  set_cell b cell.1 cell.2 GameState.ai = Returns b1 →
  determine_win_state b1 GameState.ai = Returns true →
  ∃ x y b' r',
    min_max b depth GameState.ai
    = Returns ((Z.of_nat x, Z.of_nat y, Fin 1), b)
    ∧ empty_at b (x, y)
    ∧ set_cell b x y GameState.ai = Returns b'
    ∧ min_max b' (depth - 1) GameState.player = Returns (r', b')
    ∧ result_score r' = Fin 1.
Proof.
  intros Hb Hwp Hwa Hd Hcell Hset Hwin.
  destruct (min_max_unfold b depth GameState.ai Hb ltac:(done))
    as (cands & Hcands & Hr); [apply cutoff_false_intro; [lia|done..]|].
  pose proof (candidates_Forall2 _ _ _ _ _ Hcands) as Hpairs.
  pose proof (determine_possible_positions_filter b Hb) as Hcells.
  pose proof (determine_possible_positions_empty b _ Hcells) as Hempty.
  destruct (min_max_within_depth _ b depth GameState.ai eq_refl Hb
              ltac:(done) ltac:(lia)) as (r & Hr' & Hunit & _).
  rewrite Hr in Hr'. injection Hr' as <-.
  destruct (pick_spec GameState.ai cands (initial_best GameState.ai))
    as (_ & Hall & [[Hinit _] | (i & Hi & _)]).
  { rewrite Hinit in Hunit. by destruct Hunit as [? | [? | ?]]. }
  assert (result_score (pick GameState.ai (initial_best GameState.ai) cands)
          = Fin 1) as Hscore.
  { assert (cell ∈ filter (empty_at b) row_major) as Hin.
    { apply list_elem_of_filter. split; [done|].
      destruct cell as [cx cy].
      destruct (get_cell_range b cx cy _ Hb Hcell) as [Hcx Hcy].
      unfold row_major.
      destruct cx as [|[|[|cx]]]; [| | |lia];
        (destruct cy as [|[|[|cy]]]; [| | |lia]);
        repeat (first [apply list_elem_of_here | apply list_elem_of_further]). }
    apply list_elem_of_lookup_1 in Hin as [j Hj].
    destruct (Forall2_lookup_l _ _ _ _ _ Hpairs Hj) as (c & Hc & Hcand).
    apply candidate_inv in Hcand as (b1' & r1 & b1'' & Hset' & Hr1 & ->).
    rewrite Hset in Hset'. injection Hset' as <-.
    pose proof (set_cell_3x3 _ _ _ _ _ Hb Hset) as Hb1.
    destruct (determine_win_state_total b1 GameState.player Hb1)
      as [wp1 Hwp1].
    unfold min_max in Hr1. rewrite min_max_fuel_cutoff in Hr1
      by (eapply cutoff_won; [done..|apply orb_true_r]).
    rewrite (evaluate_wins b1 true wp1) in Hr1 by done.
    cbn [outcome_bind GameState.neg] in Hr1. injection Hr1 as <- _.
    apply list_elem_of_lookup_2 in Hc. specialize (Hall _ Hc).
    rewrite improves_ai in Hall. cbn [result_score snd] in Hall.
    unfold score_gtb in Hall.
    destruct Hunit as [Hu | [Hu | Hu]]; rewrite Hu in Hall |- *; done. }
  destruct (Forall2_lookup_r _ _ _ _ _ Hpairs Hi)
    as ([x y] & Hxy & Hcand).
  apply candidate_inv in Hcand as (b' & r' & b'' & Hset' & Hr1 & Hpick).
  pose proof (min_max_fuel_frame _ _ _ _ _ _ Hr1) as ->.
  cbn [fst snd GameState.neg] in *.
  exists x, y, b', r'. rewrite Hr. rewrite Hpick in Hscore |- *.
  cbn [result_score snd] in Hscore. rewrite Hscore.
  split; [done|]. split; [|done].
  apply list_elem_of_lookup_2, list_elem_of_filter in Hxy. tauto.
Qed.

Lemma min_max_sees_win_witness :
  ∃ x y b' r',
    min_max ai_threat_board 4 GameState.ai
    = Returns ((Z.of_nat x, Z.of_nat y, Fin 1), ai_threat_board)
    ∧ empty_at ai_threat_board (x, y)
    ∧ set_cell ai_threat_board x y GameState.ai = Returns b'
    ∧ min_max b' (4 - 1) GameState.player = Returns (r', b')
    ∧ result_score r' = Fin 1.
Proof.
  apply (min_max_sees_win ai_threat_board
           [[GameState.ai; GameState.ai; GameState.ai];
            [GameState.player; GameState.player; GameState.empty];
            [GameState.empty; GameState.empty; GameState.empty]]
           4 (0, 2)%nat).
  - apply is_3x3_intro.
  - reflexivity.
  - reflexivity.
  - vm_compute. split; discriminate.
  - reflexivity.
  - reflexivity.
  - reflexivity.
Defined.

(** ** Boards that are too small *)

Lemma get_cell_outcome (b : board) (i x : nat) :
  (∃ c, get_cell b i x = Returns c) ∨ get_cell b i x = IndexError.
Proof.
  unfold get_cell. destruct (b !! i) as [row|]; [|by right].
  destruct (row !! x); [left; by eexists | by right].
Qed.

(** Run the functions that read the nine cells in row-major order on
    cells that are known. *)
Ltac read_chain :=
  unfold determine_win_state, win_states, determine_possible_positions,
    render_board;
  repeat
    first
      [ progress unfold range3
      | progress cbn [outcome_bind fst snd row_positions extend_rows
                        render_rows render_cells]
      | match goal with H : get_cell _ _ _ = _ |- _ => rewrite H end ].

Lemma readers_fail `{Imports} (b : board) (s : GameState.t)
  (disable : bool) :
  ¬ covers_3x3 b →
  determine_win_state b s = IndexError
  ∧ determine_possible_positions b = IndexError
  ∧ render_board b disable = IndexError.
Proof.
  intros Hno.
  destruct (get_cell_outcome b 0 0) as [[c00 H00]|H00];
    [|by repeat split; read_chain].
  destruct (get_cell_outcome b 0 1) as [[c01 H01]|H01];
    [|by repeat split; read_chain].
  destruct (get_cell_outcome b 0 2) as [[c02 H02]|H02];
    [|by repeat split; read_chain].
  destruct (get_cell_outcome b 1 0) as [[c10 H10]|H10];
    [|by repeat split; read_chain].
  destruct (get_cell_outcome b 1 1) as [[c11 H11]|H11];
    [|by repeat split; read_chain].
  destruct (get_cell_outcome b 1 2) as [[c12 H12]|H12];
    [|by repeat split; read_chain].
  destruct (get_cell_outcome b 2 0) as [[c20 H20]|H20];
    [|by repeat split; read_chain].
  destruct (get_cell_outcome b 2 1) as [[c21 H21]|H21];
    [|by repeat split; read_chain].
  destruct (get_cell_outcome b 2 2) as [[c22 H22]|H22];
    [|by repeat split; read_chain].
  exfalso. apply Hno. unfold covers_3x3, row_major.
  repeat (constructor; [cbn [fst snd]; by eexists|]). constructor.
Qed.

Lemma readers_return `{Imports} (b : board) (s : GameState.t)
  (disable : bool) :
  covers_3x3 b →
  (∃ w, determine_win_state b s = Returns w)
  ∧ (∃ cells, determine_possible_positions b = Returns cells)
  ∧ (∃ rows, render_board b disable = Returns rows).
Proof.
  unfold covers_3x3, row_major. rewrite !Forall_cons. cbn [fst snd].
  intros ([c00 H00] & [c01 H01] & [c02 H02] & [c10 H10] & [c11 H11]
          & [c12 H12] & [c20 H20] & [c21 H21] & [c22 H22] & _).
  repeat split; read_chain; by eexists.
Qed.

(** X14: the functions that read the board look at its first three rows
    and at the first three cells of each.  If one of these nine cells is
    missing, [determine_win_state], [determine_possible_positions],
    [evaluate], [render_board] and [min_max], at every depth, raise
    [IndexError]; if none is missing, the first four return. *)
Theorem readers_bounds `{Imports} (b : board) (s : GameState.t)
  (disable : bool) (depth : Z) :
  (covers_3x3 b →
   (∃ w, determine_win_state b s = Returns w)
   ∧ (∃ cells, determine_possible_positions b = Returns cells)
   ∧ (∃ v, evaluate b = Returns v)
   ∧ (∃ rows, render_board b disable = Returns rows))
  ∧ (¬ covers_3x3 b →
     determine_win_state b s = IndexError
     ∧ determine_possible_positions b = IndexError
     ∧ evaluate b = IndexError
     ∧ render_board b disable = IndexError
     ∧ min_max b depth s = IndexError).
Proof.
  split.
  - intros Hb.
    destruct (readers_return b s disable Hb) as (Hw & Hcells & Hrows).
    destruct (readers_return b GameState.ai disable Hb) as ([wa Hwa] & _).
    destruct (readers_return b GameState.player disable Hb)
      as ([wp Hwp] & _).
    split; [done|]. split; [done|]. split; [|done].
    eexists. by apply evaluate_wins.
  - intros Hb.
    destruct (readers_fail b s disable Hb) as (Hw & Hcells & Hrows).
    destruct (readers_fail b GameState.ai disable Hb) as (Hwa & _).
    destruct (readers_fail b GameState.player disable Hb) as (Hwp & _).
    assert (evaluate b = IndexError) as Hv.
    { unfold evaluate. by rewrite Hwa. }
    split; [done|]. split; [done|]. split; [done|]. split; [done|].
    unfold min_max. rewrite min_max_fuel_S. unfold cutoff.
    case_decide; cbn [outcome_bind]; [by rewrite Hv | by rewrite Hwp].
Qed.

Lemma readers_bounds_witness :
  determine_win_state short_board GameState.ai = IndexError
  ∧ determine_possible_positions short_board = IndexError
  ∧ evaluate short_board = IndexError
  ∧ @render_board discord short_board false = IndexError
  ∧ min_max short_board 4 GameState.ai = IndexError.
Proof.
  apply (proj2 (@readers_bounds discord short_board GameState.ai false 4)).
  unfold covers_3x3, row_major. intros Hall.
  do 6 apply Forall_cons in Hall as [_ Hall].
  apply Forall_cons in Hall as [[c Hc] _]. discriminate Hc.
Defined.

(** ** The two sides exchanged *)

Lemma neg_involutive (s : GameState.t) : GameState.neg (GameState.neg s) = s.
Proof. by destruct s. Qed.

Lemma neg_eq_iff (c s : GameState.t) :
  GameState.neg c = GameState.neg s ↔ c = s.
Proof. destruct c, s; split; done. Qed.

Lemma get_cell_swap_sides (b : board) (i x : nat) :
  get_cell (swap_sides b) i x
  = outcome_bind (get_cell b i x) (λ c, Returns (GameState.neg c)).
Proof.
  unfold get_cell, swap_sides. rewrite list_lookup_fmap.
  destruct (b !! i) as [row|]; [|done]. cbn [fmap option_fmap option_map].
  rewrite list_lookup_fmap. by destruct (row !! x).
Qed.

Lemma swap_sides_3x3 (b : board) : is_3x3 b → is_3x3 (swap_sides b).
Proof. intros Hb. name_cells Hb. apply is_3x3_intro. Qed.

Lemma has_line_swap_sides (b : board) (s : GameState.t) :
  has_line (swap_sides b) (GameState.neg s) ↔ has_line b s.
Proof.
  assert (∀ l, line_uniform (swap_sides b) (GameState.neg s) l
               ↔ line_uniform b s l) as Hline.
  { intros l. unfold line_uniform.
    apply Forall_iff. intros [i x]. cbn [fst snd].
    rewrite get_cell_swap_sides.
    destruct (get_cell b i x) as [c| |]; cbn [outcome_bind]; [|done..].
    split; intros [= Hc]; f_equal; [by apply neg_eq_iff | by rewrite Hc]. }
  unfold has_line. rewrite !Exists_exists.
  split; intros (l & Hl & Hu); exists l; (split; [done|]); by apply Hline.
Qed.

Lemma determine_win_state_swap_sides (b : board) (s : GameState.t) :
  is_3x3 b →
  determine_win_state (swap_sides b) (GameState.neg s)
  = determine_win_state b s.
Proof.
  intros Hb.
  destruct (has_line_wins b s Hb) as [[-> Hl] | [-> Hl]];
    destruct (has_line_wins (swap_sides b) (GameState.neg s)
                (swap_sides_3x3 b Hb)) as [[-> Hl'] | [-> Hl']];
    try done; rewrite has_line_swap_sides in Hl'; tauto.
Qed.

Lemma empty_at_swap_sides (b : board) (p : nat * nat) :
  empty_at (swap_sides b) p ↔ empty_at b p.
Proof.
  unfold empty_at. rewrite get_cell_swap_sides.
  destruct (get_cell b p.1 p.2) as [c| |]; cbn [outcome_bind]; [|done..].
  split; intros [= Hc]; f_equal; [by destruct c | by rewrite Hc].
Qed.

Lemma filter_empty_swap_sides (b : board) (l : list (nat * nat)) :
  filter (empty_at (swap_sides b)) l = filter (empty_at b) l.
Proof. apply list_filter_iff. intros p. apply empty_at_swap_sides. Qed.

Lemma count_empty_swap_sides (b : board) :
  is_3x3 b → count_empty (swap_sides b) = count_empty b.
Proof.
  intros Hb.
  rewrite <- !length_positions_count_empty by (done || by apply swap_sides_3x3).
  by rewrite filter_empty_swap_sides.
Qed.

Lemma set_cell_swap_sides (b b1 : board) (x y : nat) (v : GameState.t) :
  set_cell b x y v = Returns b1 →
  set_cell (swap_sides b) x y (GameState.neg v) = Returns (swap_sides b1).
Proof.
  intros (row & Hx & Hy & ->)%set_cell_inv. unfold set_cell, swap_sides.
  rewrite list_lookup_fmap, Hx. cbn [fmap option_fmap option_map].
  rewrite length_fmap, decide_True by done.
  by rewrite !list_fmap_insert.
Qed.

Lemma cutoff_swap_sides (depth : Z) (b : board) :
  is_3x3 b → cutoff depth (swap_sides b) = cutoff depth b.
Proof.
  intros Hb. unfold cutoff. case_decide; [done|].
  rewrite <- (determine_win_state_swap_sides b GameState.ai Hb).
  rewrite <- (determine_win_state_swap_sides b GameState.player Hb).
  cbn [GameState.neg].
  destruct (determine_win_state_total (swap_sides b) GameState.ai
              (swap_sides_3x3 b Hb)) as [[|] ->];
    destruct (determine_win_state_total (swap_sides b) GameState.player
                (swap_sides_3x3 b Hb)) as [[|] ->]; done.
Qed.

Lemma evaluate_swap_sides (b : board) (v : Z) :
  is_3x3 b →
  ¬ (has_line b GameState.player ∧ has_line b GameState.ai) →
  evaluate b = Returns v → evaluate (swap_sides b) = Returns (- v).
Proof.
  intros Hb Hboth.
  pose proof (determine_win_state_swap_sides b GameState.ai Hb) as Ha.
  pose proof (determine_win_state_swap_sides b GameState.player Hb) as Hp.
  cbn [GameState.neg] in Ha, Hp.
  destruct (has_line_wins b GameState.ai Hb) as [[Hwa Hla] | [Hwa Hla]];
    destruct (has_line_wins b GameState.player Hb)
      as [[Hwp Hlp] | [Hwp Hlp]]; [tauto| | |];
    rewrite Hwa in Ha; rewrite Hwp in Hp;
    rewrite (evaluate_wins b _ _ Hwa Hwp);
    rewrite (evaluate_wins (swap_sides b) _ _ Hp Ha);
    by intros [= <-].
Qed.

Lemma improves_mirror (p : GameState.t) (c best : result) :
  p ≠ GameState.empty →
  improves (GameState.neg p) (mirror c) (mirror best) = improves p c best.
Proof.
  intros Hp. destruct p; [done| |].
  - cbn [GameState.neg]. rewrite improves_ai, improves_other by done.
    unfold score_gtb, mirror. cbn [result_score snd].
    destruct (result_score c) as [|z|], (result_score best) as [|z0|];
      cbn [negate score_ltb]; try done.
    destruct (Z.ltb_spec (- z0) (- z)), (Z.ltb_spec z z0); try done; lia.
  - cbn [GameState.neg]. rewrite improves_ai, improves_other by done.
    unfold score_gtb, mirror. cbn [result_score snd].
    destruct (result_score c) as [|z|], (result_score best) as [|z0|];
      cbn [negate score_ltb]; try done.
    destruct (Z.ltb_spec (- z) (- z0)), (Z.ltb_spec z0 z); try done; lia.
Qed.

Lemma initial_best_mirror (p : GameState.t) :
  p ≠ GameState.empty →
  initial_best (GameState.neg p) = mirror (initial_best p).
Proof. by destruct p. Qed.

Lemma pick_mirror (p : GameState.t) (cands : list result) :
  p ≠ GameState.empty →
  ∀ best,
    pick (GameState.neg p) (mirror best) (mirror <$> cands)
    = mirror (pick p best cands).
Proof.
  intros Hp. induction cands as [|c cs IH]; intros best; [done|].
  rewrite fmap_cons, !pick_cons, improves_mirror by done.
  destruct (improves p c best); apply IH.
Qed.

Lemma candidates_swap_sides (b : board) (depth : Z) (p : GameState.t)
  (cells : list (nat * nat)) :
  (∀ cell b1 r1,
     empty_at b cell →
     set_cell b cell.1 cell.2 p = Returns b1 →
     min_max b1 (depth - 1) (GameState.neg p) = Returns (r1, b1) →
     min_max (swap_sides b1) (depth - 1) (GameState.neg (GameState.neg p))
     = Returns (mirror r1, swap_sides b1)) →
  Forall (empty_at b) cells →
  ∀ cands,
    candidates b depth p cells = Returns cands →
    candidates (swap_sides b) depth (GameState.neg p) cells
    = Returns (mirror <$> cands).
Proof.
  intros Hbelow Hempty.
  induction Hempty as [|cell cells Hcell _ IH]; intros cands;
    cbn [candidates].
  { by intros [= <-]. }
  destruct (candidate b depth p cell) as [c| |] eqn:Hc; [|done..].
  cbn [outcome_bind].
  destruct (candidates b depth p cells) as [cs| |]; [|done..].
  cbn [outcome_bind]. intros [= <-].
  apply candidate_inv in Hc as (b1 & r1 & b1' & Hset & Hr1 & ->).
  pose proof (min_max_fuel_frame _ _ _ _ _ _ Hr1) as ->.
  unfold candidate at 1. rewrite (set_cell_swap_sides _ _ _ _ _ Hset).
  cbn [outcome_bind]. rewrite (Hbelow cell b1 r1 Hcell Hset Hr1).
  cbn [outcome_bind]. rewrite (IH cs eq_refl). done.
Qed.

Lemma min_max_swap (n : nat) :
  ∀ (b : board) (depth : Z) (p : GameState.t) (r : result),
    count_empty b = n → is_3x3 b → p ≠ GameState.empty →
    ¬ (has_line b GameState.player ∧ has_line b GameState.ai) →
    min_max b depth p = Returns (r, b) →
    min_max (swap_sides b) depth (GameState.neg p)
    = Returns (mirror r, swap_sides b).
Proof.
  induction (lt_wf n) as [n _ IH]. intros b depth p r Hn Hb Hp Hboth Hr.
  pose proof (swap_sides_3x3 b Hb) as Hb'.
  destruct (cutoff_total depth b Hb) as [[|] Hc].
  { destruct (evaluate_total b Hb) as (v & Hv & _).
    unfold min_max in Hr |- *. rewrite min_max_fuel_cutoff in Hr by done.
    rewrite Hv in Hr. cbn [outcome_bind] in Hr. injection Hr as <-.
    rewrite min_max_fuel_cutoff by (by rewrite cutoff_swap_sides).
    by rewrite (evaluate_swap_sides b v Hb Hboth Hv). }
  destruct (min_max_unfold b depth p Hb Hp Hc) as (cands & Hcands & Hpick).
  rewrite Hr in Hpick. injection Hpick as ->.
  destruct (min_max_unfold (swap_sides b) depth (GameState.neg p) Hb'
              (neg_not_empty p Hp)) as (cands' & Hcands' & Hpick');
    [by rewrite cutoff_swap_sides|].
  rewrite Hpick'. rewrite filter_empty_swap_sides in Hcands'.
  apply cutoff_false_depth in Hc as (_ & Hwp & Hwa).
  rewrite (candidates_swap_sides b depth p _) with (cands := cands)
    in Hcands'; [| |by eapply determine_possible_positions_empty,
                       determine_possible_positions_filter|done].
  - injection Hcands' as <-.
    by rewrite initial_best_mirror, pick_mirror.
  - intros [x y] b1 r1 Hcell Hset Hr1. cbn [fst snd] in Hset.
    pose proof (set_cell_count_empty _ _ _ _ _ Hcell Hp Hset) as Hcount.
    pose proof (set_cell_3x3 _ _ _ _ _ Hb Hset) as Hb1.
    apply (IH (count_empty b1) ltac:(lia) b1 (depth - 1) (GameState.neg p)
             r1 eq_refl Hb1 (neg_not_empty p Hp)); [|done].
    intros [Hlp Hla].
    destruct p; [done| |].
    + destruct (has_line_wins b1 GameState.ai Hb1) as [[_ _] | [_ Hno]];
        [|done].
      pose proof (determine_win_state_set_cell b b1 x y GameState.player
                    GameState.ai Hb Hset ltac:(done) Hwa) as Hwa1.
      destruct (has_line_wins b1 GameState.ai Hb1) as [[Hw _] | [_ Hno]];
        [congruence|done].
    + pose proof (determine_win_state_set_cell b b1 x y GameState.ai
                    GameState.player Hb Hset ltac:(done) Hwp) as Hwp1.
      destruct (has_line_wins b1 GameState.player Hb1)
        as [[Hw _] | [_ Hno]]; [congruence|done].
Qed.

(** X15: the search treats the two sides alike.  On a three-by-three
    board on which the two sides do not both have a line, exchanging the
    author and the AI on the board and as the side to move gives the same
    move, with the opposite score. *)
Theorem min_max_swap_sides (b : board) (depth : Z) (p : GameState.t) :
  is_3x3 b → p ≠ GameState.empty →
  ¬ (has_line b GameState.player ∧ has_line b GameState.ai) →
  ∃ r, min_max b depth p = Returns (r, b)
       ∧ min_max (swap_sides b) depth (GameState.neg p)
         = Returns (mirror r, swap_sides b).
Proof.
  intros Hb Hp Hboth.
  destruct (min_max_returns b depth p Hb Hp) as [r Hr].
  exists r. split; [done|]. by eapply min_max_swap.
Qed.

Lemma min_max_swap_sides_witness :
  ∃ r, min_max two_in_a_row_board 4 GameState.ai
       = Returns (r, two_in_a_row_board)
       ∧ min_max (swap_sides two_in_a_row_board) 4
           (GameState.neg GameState.ai)
         = Returns (mirror r, swap_sides two_in_a_row_board).
Proof.
  apply min_max_swap_sides.
  - apply is_3x3_intro.
  - done.
  - intros [Hp _].
    destruct (has_line_wins two_in_a_row_board GameState.player
                (is_3x3_intro _ _ _ _ _ _ _ _ _)) as [[Hw _] | [_ Hno]];
      [discriminate Hw | done].
Defined.

(** ** A game that the author wins *)

Section game.
Context `{ImportsSpec}.

(** One call of [process_turn] on a rendered board, from what its steps
    give. *)
Lemma process_turn_run (candidate author : Z) (b b1 b' : board)
  (disable : bool) (rows : list ActionRow) (i x : nat)
  (w : option winner) :
  is_3x3 b → render_board b disable = Returns rows →
  empty_at b (i, x) →
  set_cell b i x GameState.player = Returns b1 →
  ai_reply candidate b1 = Returns b' →
  determine_winner b' = Returns w →
  is_3x3 b' →
  ∃ rows',
    render_board b' (bool_decide (w ≠ None)) = Returns rows'
    ∧ process_turn candidate author [author] (button_id i x) rows
      = Edited w rows'.
Proof.
  intros Hb Hrows Hcell Hset Hreply Hw Hb'.
  destruct (round_trip b' (bool_decide (w ≠ None)) Hb')
    as (rows' & Hrows' & _).
  exists rows'. split; [done|].
  destruct (get_cell_range b i x _ Hb Hcell) as [Hi Hx].
  unfold process_turn, authorised. cbn [forallb].
  rewrite bool_decide_eq_true_2 by done. cbn [andb].
  rewrite button_pos_id by done.
  unfold play_turn.
  rewrite (rendered_decodes b disable rows Hb Hrows).
  cbn [outcome_bind fst snd].
  rewrite (py_get_cell_of_nat b i x GameState.empty Hcell).
  cbn [outcome_bind]. rewrite decide_False by (by intros []).
  rewrite py_set_cell_of_nat, Hset by done. cbn [outcome_bind].
  rewrite Hreply. cbn [outcome_bind]. rewrite Hw. cbn [outcome_bind].
  rewrite Hrows'.
  by rewrite spread_rows_id by (by eapply rendered_length).
Qed.

Lemma author_wins_in_three (author c2 c3 : Z) :
  c2 ∈ depth_candidates → c3 ∈ depth_candidates →
  ∃ rows0 rows1 rows2 rows3,
    ttt_start = Returns rows0
    ∧ process_turn 4 author [author] (button_id 0 0) rows0
      = Edited None rows1
    ∧ process_turn c2 author [author] (button_id 1 1) rows1
      = Edited None rows2
    ∧ process_turn c3 author [author] (button_id 2 2) rows2
      = Edited (Some Author) rows3.
Proof.
  intros Hc2 Hc3.
  set (p := GameState.player). set (a := GameState.ai).
  set (e := GameState.empty).
  destruct (round_trip BoardTemplate false BoardTemplate_3x3)
    as (rows0 & Hrows0 & _).
  destruct (process_turn_run 4 author BoardTemplate
              [[p; e; e]; [e; e; e]; [e; e; e]]
              [[p; a; e]; [e; e; e]; [e; e; e]]
              false rows0 0 0 None)
    as (rows1 & Hrows1 & Hturn1);
    [apply BoardTemplate_3x3|done|reflexivity..|apply is_3x3_intro|].
  assert (ai_reply c2 [[p; a; e]; [e; p; e]; [e; e; e]]
          = Returns [[p; a; a]; [e; p; e]; [e; e; e]]) as Hreply2.
  { unfold depth_candidates in Hc2.
    apply elem_of_cons in Hc2 as [->|Hc2]; [reflexivity|].
    apply elem_of_cons in Hc2 as [->|Hc2]; [reflexivity|].
    by apply elem_of_nil in Hc2. }
  destruct (process_turn_run c2 author
              [[p; a; e]; [e; e; e]; [e; e; e]]
              [[p; a; e]; [e; p; e]; [e; e; e]]
              [[p; a; a]; [e; p; e]; [e; e; e]]
              _ rows1 1 1 None (is_3x3_intro _ _ _ _ _ _ _ _ _) Hrows1)
    as (rows2 & Hrows2 & Hturn2);
    [reflexivity|reflexivity|exact Hreply2|reflexivity|apply is_3x3_intro|].
  destruct (process_turn_run c3 author
              [[p; a; a]; [e; p; e]; [e; e; e]]
              [[p; a; a]; [e; p; e]; [e; e; p]]
              [[p; a; a]; [e; p; e]; [e; e; p]]
              _ rows2 2 2 (Some Author)
              (is_3x3_intro _ _ _ _ _ _ _ _ _) Hrows2)
    as (rows3 & Hrows3 & Hturn3);
    [reflexivity..|apply is_3x3_intro|].
  by exists rows0, rows1, rows2, rows3.
Qed.

End game.

(** X16: the AI can be beaten.  If [random.choice] draws 4 for the first
    reply, then, whatever it draws afterwards, the clicks on (0,0), (1,1)
    and (2,2) by the user who started the game are each answered by an
    edit, and the third edit announces the author as the winner. *)
Theorem author_can_win `{ImportsSpec} (author c2 c3 : Z) :
  c2 ∈ depth_candidates → c3 ∈ depth_candidates →
  ∃ rows0 rows1 rows2 rows3,
    ttt_start = Returns rows0
    ∧ process_turn 4 author [author] (button_id 0 0) rows0
      = Edited None rows1
    ∧ process_turn c2 author [author] (button_id 1 1) rows1
      = Edited None rows2
    ∧ process_turn c3 author [author] (button_id 2 2) rows2
      = Edited (Some Author) rows3.
Proof. apply author_wins_in_three. Qed.

Lemma author_can_win_witness :
  ∃ rows0 rows1 rows2 rows3,
    @ttt_start discord = Returns rows0
    ∧ @process_turn discord 4 7 [7] (button_id 0 0) rows0
      = Edited None rows1
    ∧ @process_turn discord 6 7 [7] (button_id 1 1) rows1
      = Edited None rows2
    ∧ @process_turn discord 4 7 [7] (button_id 2 2) rows2
      = Edited (Some Author) rows3.
Proof.
  apply (@author_can_win discord discord_spec 7 6 4).
  - unfold depth_candidates. apply list_elem_of_further, list_elem_of_here.
  - unfold depth_candidates. apply list_elem_of_here.
Defined.
(** ** The first two moves of a game against the search to the end *)

Lemma can_hold_as_second : can_hold 9 BoardTemplate GameState.player = true.
Proof. reflexivity. Qed.

Lemma can_hold_opened : can_hold 8 opened_board GameState.player = true.
Proof. reflexivity. Qed.

Lemma ai_not_empty : GameState.ai ≠ GameState.empty.
Proof. discriminate. Qed.

Lemma score_zero (s : score) :
  score_ltb s (Fin 0) = false → score_ltb (Fin 0) s = false → s = Fin 0.
Proof.
  destruct s as [|z|]; cbn [score_ltb]; try done.
  rewrite !Z.ltb_ge. intros. f_equal. lia.
Qed.

Lemma holds_negate (s : score) :
  holds (negate s) → score_ltb (Fin 0) s = false.
Proof.
  unfold holds. destruct s as [|z|]; cbn [negate score_ltb]; try done.
  rewrite !Z.ltb_ge. lia.
Qed.

(** On the empty board the game is worth a draw to the AI: it can avoid
    defeat when it moves first, and so can the author, by the symmetry of
    the search. *)
Lemma min_max_start_score (r : result) :
  min_max BoardTemplate 9 GameState.ai = Returns (r, BoardTemplate) →
  result_score r = Fin 0.
Proof.
  intros Hr.
  destruct (can_hold_sound 9 BoardTemplate GameState.ai BoardTemplate_3x3
              can_hold_from_start) as (r1 & Hr1 & Hholds).
  change (Z.of_nat (count_empty BoardTemplate)) with 9 in Hr1.
  rewrite Hr in Hr1. injection Hr1 as <-.
  destruct (can_hold_sound 9 BoardTemplate GameState.player
              BoardTemplate_3x3 can_hold_as_second)
    as (r2 & Hr2 & Hholds2).
  change (Z.of_nat (count_empty BoardTemplate)) with 9 in Hr2.
  assert (¬ (has_line BoardTemplate GameState.player
             ∧ has_line BoardTemplate GameState.ai)) as Hboth.
  { intros [Hp _].
    destruct (has_line_wins BoardTemplate GameState.player
                BoardTemplate_3x3) as [[Hw _] | [_ Hno]];
      [discriminate Hw | exact (Hno Hp)]. }
  pose proof (min_max_swap 9 BoardTemplate 9 GameState.ai r eq_refl
                BoardTemplate_3x3 ai_not_empty Hboth Hr) as Hswap.
  change (swap_sides BoardTemplate) with BoardTemplate in Hswap.
  cbn [GameState.neg] in Hswap. rewrite Hswap in Hr2.
  injection Hr2 as <-. cbn [mirror result_score snd] in Hholds2.
  apply score_zero; [exact Hholds|]. apply holds_negate. exact Hholds2.
Qed.

(** The first move of the AI on the empty board is (0,0). *)
Lemma min_max_opening :
  min_max BoardTemplate 9 GameState.ai
  = Returns ((0, 0, Fin 0), BoardTemplate).
Proof.
  destruct (node_children BoardTemplate GameState.ai BoardTemplate_3x3
              ai_not_empty eq_refl eq_refl ltac:(discriminate))
    as (cands & Hr & Hpairs).
  change (Z.of_nat (count_empty BoardTemplate)) with 9 in Hr.
  pose proof (min_max_start_score _ Hr) as Hscore.
  rewrite Hr. f_equal. f_equal.
  change (filter (empty_at BoardTemplate) row_major) with row_major
    in Hpairs.
  unfold row_major in Hpairs.
  apply Forall2_cons_inv_l in Hpairs
    as (c0 & cs & (b1 & r1 & Hset & Hr1 & Hc0) & _ & ->).
  cbn [fst snd] in Hset, Hc0. injection Hset as <-.
  change (set_cell BoardTemplate 0 0 GameState.ai) with
    (Returns opened_board) in *.
  destruct (can_hold_sound 8 opened_board GameState.player
              (is_3x3_intro _ _ _ _ _ _ _ _ _) can_hold_opened)
    as (r1' & Hr1' & Hholds).
  cbn [GameState.neg] in Hr1.
  change [[GameState.ai; GameState.empty; GameState.empty];
          [GameState.empty; GameState.empty; GameState.empty];
          [GameState.empty; GameState.empty; GameState.empty]]
    with opened_board in Hr1.
  rewrite Hr1 in Hr1'. injection Hr1' as <-.
  destruct (pick_spec GameState.ai (c0 :: cs) (initial_best GameState.ai))
    as (_ & Hall & Hwhich).
  pose proof (Hall c0 (list_elem_of_here _ _)) as Hc0r.
  rewrite improves_ai in Hc0r. unfold score_gtb in Hc0r.
  rewrite Hscore in Hc0r.
  assert (result_score c0 = Fin 0) as Hc0score.
  { rewrite Hc0 in Hc0r |- *. cbn [result_score snd] in Hc0r |- *.
    apply score_zero; [exact Hholds | exact Hc0r]. }
  destruct Hwhich as [[Hinit _] | (i & Hi & _ & Hbefore)].
  { pose proof (eq_trans (eq_sym (f_equal result_score Hinit)) Hscore)
      as Habs.
    discriminate Habs. }
  destruct i as [|i].
  - cbn [lookup list_lookup] in Hi. apply (inj Some) in Hi.
    rewrite <- Hi. rewrite Hc0 in Hc0score |- *. cbn [result_score snd] in Hc0score.
    rewrite Hc0score. reflexivity.
  - pose proof (Hbefore 0%nat c0 ltac:(lia) eq_refl) as Himp.
    rewrite improves_ai in Himp. unfold score_gtb in Himp.
    rewrite Hscore, Hc0score in Himp. discriminate Himp.
Qed.

Lemma full_depth_search_never_loses_witness :
  (2 ≤ 9)%nat
  ∧ ∃ w, determine_winner answered_board = Returns w
         ∧ w ≠ Some Author
         ∧ (w = None →
            ∃ next, play_step (answered_board, GameState.ai) next).
Proof.
  apply (full_depth_search_never_loses 2 answered_board GameState.ai).
  apply (nsteps_l _ _ _ (opened_board, GameState.player)).
  - apply (play_ai BoardTemplate row_major (0, 0, Fin 0) BoardTemplate).
    + reflexivity.
    + reflexivity.
    + exact min_max_opening.
    + reflexivity.
  - apply (nsteps_l _ _ _ (answered_board, GameState.ai)); [|apply nsteps_O].
    apply (play_player opened_board
             [(0, 1); (0, 2); (1, 0); (1, 1); (1, 2); (2, 0); (2, 1);
              (2, 2)]%nat (1, 1)%nat).
    + reflexivity.
    + reflexivity.
    + do 3 apply list_elem_of_further. apply list_elem_of_here.
    + reflexivity.
Defined.
